(** * map-view.tsx: palette store, style theming, search debounce,
      keyboard camera control and capture, embedded and verified.

    The component file [src/components/map-view.tsx] keeps its whole state in
    React hooks.  Every handler is embedded as a function from the state it
    reads to the state (and the commands to the rendering surface) it
    produces; the environment (timers, the rendering surface, the canvas
    encoder) supplies its answers as arguments of those functions.

    Strings are [string]s holding the UTF-8 bytes of the JavaScript string.
    Every character class and every literal the program compares with is
    ASCII, so a byte of a longer UTF-8 sequence (always >= 128) behaves as
    the UTF-16 code unit of the same character does: it matches nothing. *)

From Stdlib Require Import ZArith List Bool Ascii String DecimalString Lia Floats.
From stdpp Require Import base strings gmap.
Import ListNotations.

Set Warnings "-inexact-float,-register-all".
Local Open Scope string_scope.

(** ** JavaScript string methods used by the component *)

Module Js.

Definition isUpper (c : ascii) : bool :=
  (Ascii.leb "A" c && Ascii.leb c "Z")%bool.

Definition lowerAscii (c : ascii) : ascii :=
  if isUpper c then ascii_of_nat (nat_of_ascii c + 32) else c.

(** U+0130 (bytes C4 B0) lowers to "i" followed by U+0307 (CC 87). *)
Definition isDottedI (c1 c2 : ascii) : bool :=
  (Ascii.eqb c1 "196" && Ascii.eqb c2 "176")%bool.

(** U+212A, the Kelvin sign (bytes E2 84 AA), lowers to "k". *)
Definition isKelvin (c1 c2 c3 : ascii) : bool :=
  (Ascii.eqb c1 "226" && Ascii.eqb c2 "132" && Ascii.eqb c3 "170")%bool.

(** [String.prototype.toLowerCase].  ASCII letters are folded; the two
    characters outside ASCII whose lower case contains an ASCII letter
    are folded as well.  Any other character outside ASCII keeps its
    bytes: its lower case is outside ASCII too, and the program only
    compares lowered strings with ASCII literals or lowers strings of
    hex digits. *)
Fixpoint toLowerCase (s : string) : string :=
  match s with
  | EmptyString => EmptyString
  | String c1 r1 =>
      match r1 with
      | String c2 r2 =>
          if isDottedI c1 c2
          then String "i" (String "204" (String "135" (toLowerCase r2)))
          else
            match r2 with
            | String c3 r3 =>
                if isKelvin c1 c2 c3
                then String "k" (toLowerCase r3)
                else String (lowerAscii c1) (toLowerCase r1)
            | EmptyString => String (lowerAscii c1) (toLowerCase r1)
            end
      | EmptyString => String (lowerAscii c1) EmptyString
      end
  end.

(** [s.startsWith(p)] *)
Fixpoint startsWith (p s : string) : bool :=
  match p with
  | EmptyString => true
  | String a p' =>
      match s with
      | EmptyString => false
      | String b s' => (Ascii.eqb a b && startsWith p' s')%bool
      end
  end.

(** [s.includes(sub)] *)
Fixpoint includes (sub s : string) : bool :=
  (startsWith sub s ||
   match s with
   | EmptyString => false
   | String _ s' => includes sub s'
   end)%bool.

(** The white space and line terminators [trim] removes, by their UTF-8
    bytes: U+0009..U+000D, U+0020, U+00A0, U+1680, U+2000..U+200A,
    U+2028, U+2029, U+202F, U+205F, U+3000, U+FEFF.  [whiteLen s] is the
    number of bytes of the white-space character [s] starts with, or 0. *)
Definition whiteLen (s : string) : nat :=
  match s with
  | EmptyString => 0
  | String c1 r1 =>
      let n1 := nat_of_ascii c1 in
      if ((9 <=? n1) && (n1 <=? 13) || (n1 =? 32))%nat%bool then 1
      else
        match r1 with
        | EmptyString => 0
        | String c2 r2 =>
            let n2 := nat_of_ascii c2 in
            if ((n1 =? 194) && (n2 =? 160))%nat%bool then 2
            else
              match r2 with
              | EmptyString => 0
              | String c3 _ =>
                  let n3 := nat_of_ascii c3 in
                  if ((n1 =? 225) && (n2 =? 154) && (n3 =? 128)
                      || (n1 =? 226) && (n2 =? 128)
                         && ((128 <=? n3) && (n3 <=? 138)
                             || (n3 =? 168) || (n3 =? 169) || (n3 =? 175))
                      || (n1 =? 226) && (n2 =? 129) && (n3 =? 159)
                      || (n1 =? 227) && (n2 =? 128) && (n3 =? 128)
                      || (n1 =? 239) && (n2 =? 187) && (n3 =? 191))%nat%bool
                  then 3 else 0
              end
        end
  end.

Fixpoint trimStart (s : string) : string :=
  match s with
  | EmptyString => EmptyString
  | String _ r1 =>
      match whiteLen s with
      | 0 => s
      | 1 => trimStart r1
      | 2 => match r1 with
             | String _ r2 => trimStart r2
             | EmptyString => EmptyString
             end
      | _ => match r1 with
             | String _ (String _ r3) => trimStart r3
             | _ => EmptyString
             end
      end
  end.

Fixpoint trimEnd (s : string) : string :=
  match s with
  | EmptyString => EmptyString
  | String c r =>
      match trimStart s with
      | EmptyString => EmptyString
      | _ => String c (trimEnd r)
      end
  end.

(** [s.trim()] *)
Definition trim (s : string) : string := trimEnd (trimStart s).

(** No ASCII capital letter occurs in [s]: lowering [s] would change
    nothing. *)
Fixpoint noUpper (s : string) : bool :=
  match s with
  | EmptyString => true
  | String c r => (negb (isUpper c) && noUpper r)%bool
  end.

(** [l.join(sep)] on an array of strings. *)
Fixpoint join (sep : string) (l : list string) : string :=
  match l with
  | [] => EmptyString
  | [x] => x
  | x :: rest => x +:+ sep +:+ join sep rest
  end.

End Js.

(** ** Palette store *)

(** [type ColorKey = keyof typeof DEFAULT_COLORS], in declaration order. *)
Module ColorKey.

Inductive t : Set :=
  | bg | water | waterLine | park | grass | wood | sand | glacier
  | residential | commercial | industrial | building | aeroway
  | boundary | motorway | motorwayCasing | trunk | trunkCasing
  | primary | primaryCasing | secondary | secondaryCasing | minor
  | minorCasing | path | rail.

#[global] Instance eq_dec : EqDecision t.
Proof. solve_decision. Defined.

End ColorKey.

Module Palette.

(** The object type [typeof DEFAULT_COLORS]: one string per colour key. *)
Record Colors : Set := mkColors {
  bg : string;
  water : string;
  waterLine : string;
  park : string;
  grass : string;
  wood : string;
  sand : string;
  glacier : string;
  residential : string;
  commercial : string;
  industrial : string;
  building : string;
  aeroway : string;
  boundary : string;
  motorway : string;
  motorwayCasing : string;
  trunk : string;
  trunkCasing : string;
  primary : string;
  primaryCasing : string;
  secondary : string;
  secondaryCasing : string;
  minor : string;
  minorCasing : string;
  path : string;
  rail : string
}.

Definition DEFAULT_COLORS : Colors := {|
  bg := "#e8edda";
  water := "#7ec8e3";
  waterLine := "#68b8d8";
  park := "#c0d490";
  grass := "#c8d9a0";
  wood := "#a8c078";
  sand := "#e8e0c0";
  glacier := "#ddf0f8";
  residential := "#e4e0d4";
  commercial := "#dedad0";
  industrial := "#d4cfc4";
  building := "#d8d2c4";
  aeroway := "#dcd8cc";
  boundary := "#b8a888";
  motorway := "#fcd577";
  motorwayCasing := "#c8a030";
  trunk := "#fce090";
  trunkCasing := "#c8b040";
  primary := "#ffffff";
  primaryCasing := "#ccc8b8";
  secondary := "#ffffff";
  secondaryCasing := "#d4d0c0";
  minor := "#f4f2ec";
  minorCasing := "#dcdad0";
  path := "#d8d4c8";
  rail := "#c8c4b8"
|}.

(** [colors[k]] *)
Definition get (k : ColorKey.t) (c : Colors) : string :=
  match k with
  | ColorKey.bg => bg c
  | ColorKey.water => water c
  | ColorKey.waterLine => waterLine c
  | ColorKey.park => park c
  | ColorKey.grass => grass c
  | ColorKey.wood => wood c
  | ColorKey.sand => sand c
  | ColorKey.glacier => glacier c
  | ColorKey.residential => residential c
  | ColorKey.commercial => commercial c
  | ColorKey.industrial => industrial c
  | ColorKey.building => building c
  | ColorKey.aeroway => aeroway c
  | ColorKey.boundary => boundary c
  | ColorKey.motorway => motorway c
  | ColorKey.motorwayCasing => motorwayCasing c
  | ColorKey.trunk => trunk c
  | ColorKey.trunkCasing => trunkCasing c
  | ColorKey.primary => primary c
  | ColorKey.primaryCasing => primaryCasing c
  | ColorKey.secondary => secondary c
  | ColorKey.secondaryCasing => secondaryCasing c
  | ColorKey.minor => minor c
  | ColorKey.minorCasing => minorCasing c
  | ColorKey.path => path c
  | ColorKey.rail => rail c
  end.

(** [{ ...prev, [key]: value }]: every property of [prev] is copied and the
    one named by [key] is overridden. *)
Definition set (key : ColorKey.t) (value : string) (prev : Colors) : Colors :=
  let prop k := if decide (k = key) then value else get k prev in
  {|
    bg := prop ColorKey.bg;
    water := prop ColorKey.water;
    waterLine := prop ColorKey.waterLine;
    park := prop ColorKey.park;
    grass := prop ColorKey.grass;
    wood := prop ColorKey.wood;
    sand := prop ColorKey.sand;
    glacier := prop ColorKey.glacier;
    residential := prop ColorKey.residential;
    commercial := prop ColorKey.commercial;
    industrial := prop ColorKey.industrial;
    building := prop ColorKey.building;
    aeroway := prop ColorKey.aeroway;
    boundary := prop ColorKey.boundary;
    motorway := prop ColorKey.motorway;
    motorwayCasing := prop ColorKey.motorwayCasing;
    trunk := prop ColorKey.trunk;
    trunkCasing := prop ColorKey.trunkCasing;
    primary := prop ColorKey.primary;
    primaryCasing := prop ColorKey.primaryCasing;
    secondary := prop ColorKey.secondary;
    secondaryCasing := prop ColorKey.secondaryCasing;
    minor := prop ColorKey.minor;
    minorCasing := prop ColorKey.minorCasing;
    path := prop ColorKey.path;
    rail := prop ColorKey.rail
  |}.

(** [COLOR_GROUPS]: the grouped colour definitions of the theme dialog, each
    item a key with its label. *)
Definition COLOR_GROUPS : list (string * list (ColorKey.t * string)) :=
  [ ("Base",
     [ (ColorKey.bg, "Land"); (ColorKey.water, "Water");
       (ColorKey.waterLine, "Waterways") ]);
    ("Nature",
     [ (ColorKey.park, "Parks"); (ColorKey.grass, "Grass");
       (ColorKey.wood, "Forest"); (ColorKey.sand, "Sand / Beach");
       (ColorKey.glacier, "Glacier / Snow") ]);
    ("Urban",
     [ (ColorKey.residential, "Residential");
       (ColorKey.commercial, "Commercial");
       (ColorKey.industrial, "Industrial");
       (ColorKey.building, "Buildings");
       (ColorKey.aeroway, "Airport / Runway");
       (ColorKey.boundary, "Boundaries") ]);
    ("Roads",
     [ (ColorKey.motorway, "Motorway");
       (ColorKey.motorwayCasing, "Motorway outline");
       (ColorKey.trunk, "Trunk road");
       (ColorKey.trunkCasing, "Trunk outline");
       (ColorKey.primary, "Primary road");
       (ColorKey.primaryCasing, "Primary outline");
       (ColorKey.secondary, "Secondary road");
       (ColorKey.secondaryCasing, "Secondary outline");
       (ColorKey.minor, "Minor road");
       (ColorKey.minorCasing, "Minor outline");
       (ColorKey.path, "Path / Footway");
       (ColorKey.rail, "Railway") ]) ].

(** [COLOR_GROUPS.flatMap(g => g.items.map(i => i.key))] *)
Definition COLOR_KEYS_IN_ORDER : list ColorKey.t :=
  flat_map (fun g => map fst (snd g)) COLOR_GROUPS.

(** *** The regular expressions of the palette editor *)

(** The class [[0-9a-fA-F]]. *)
Definition isHexDigit (c : ascii) : bool :=
  (Ascii.leb "0" c && Ascii.leb c "9"
   || Ascii.leb "a" c && Ascii.leb c "f"
   || Ascii.leb "A" c && Ascii.leb c "F")%bool.

(** The class [\w], which decides the word boundary [\b]. *)
Definition isWordChar (c : ascii) : bool :=
  (Ascii.leb "0" c && Ascii.leb c "9"
   || Ascii.leb "a" c && Ascii.leb c "z"
   || Ascii.leb "A" c && Ascii.leb c "Z"
   || Ascii.eqb c "_")%bool.

Fixpoint allHex (s : string) : bool :=
  match s with
  | EmptyString => true
  | String c r => (isHexDigit c && allHex r)%bool
  end.

(** [/^#[0-9a-fA-F]{n}$/.test(v)]: the whole of [v] is a [#] and [n] hex
    digits ([$] without the [m] flag is the end of the input only). *)
Definition hexTest (n : nat) (v : string) : bool :=
  match v with
  | String "#" r => ((String.length r =? n)%nat && allHex r)%bool
  | _ => false
  end.

(** [[0-9a-fA-F]{n}] at the head of [s]: the digits and what follows. *)
Fixpoint takeHex (n : nat) (s : string) : option (string * string) :=
  match n with
  | O => Some (EmptyString, s)
  | S n' =>
      match s with
      | String c r =>
          if isHexDigit c
          then match takeHex n' r with
               | Some (d, rest) => Some (String c d, rest)
               | None => None
               end
          else None
      | EmptyString => None
      end
  end.

(** [\b] right after a hex digit (a word character): the input ends or a
    character outside [\w] follows. *)
Definition wordBoundary (rest : string) : bool :=
  match rest with
  | EmptyString => true
  | String c _ => negb (isWordChar c)
  end.

(** One attempt of [/#[0-9a-fA-F]{3}(?:[0-9a-fA-F]{3})?\b/] at the head of
    [s].  The optional group is greedy: six digits are tried first, and when
    the boundary fails after them the matcher backtracks to three. *)
Definition matchHexAt (s : string) : option string :=
  match s with
  | String "#" r =>
      match takeHex 3 r with
      | Some (d3, r3) =>
          match takeHex 3 r3 with
          | Some (d6, r6) =>
              if wordBoundary r6 then Some (String "#" (d3 +:+ d6))
              else if wordBoundary r3 then Some (String "#" d3)
              else None
          | None =>
              if wordBoundary r3 then Some (String "#" d3) else None
          end
      | None => None
      end
  | _ => None
  end.

(** The strings the two tests of the text field accept: a [#] and three
    or six hex digits. *)
Definition isHexCode (m : string) : Prop :=
  hexTest 3 m = true \/ hexTest 6 m = true.

(** [raw.match(/.../g) ?? []]: the matches from left to right.  After a
    match the scan resumes behind it: [skip] counts the characters of the
    last match that are still to be passed over. *)
Fixpoint matchAllFrom (skip : nat) (s : string) : list string :=
  match s with
  | EmptyString => []
  | String _ r =>
      match skip with
      | S k => matchAllFrom k r
      | O =>
          match matchHexAt s with
          | Some m => m :: matchAllFrom (String.length m - 1) r
          | None => matchAllFrom 0 r
          end
      end
  end.

Definition matchHexCodes (raw : string) : list string := matchAllFrom 0 raw.

(** [raw.replace(/[^0-9a-fA-F]/gi, "")]: the [i] flag adds nothing to a class
    that already holds both cases. *)
Fixpoint stripNonHex (raw : string) : string :=
  match raw with
  | EmptyString => EmptyString
  | String c r =>
      if isHexDigit c then String c (stripNonHex r) else stripNonHex r
  end.

(** [stripped.match(/.{6}/g) ?? []] on a string of hex digits: consecutive
    groups of six, a shorter rest is dropped ([.] refuses line terminators
    only, and [stripped] has none). *)
Fixpoint chunks6 (s : string) : list string :=
  match s with
  | String a (String b (String c (String d (String e (String f r))))) =>
      String a (String b (String c (String d (String e (String f "")))))
      :: chunks6 r
  | _ => []
  end.

(** The callback of the first [map] in [applyBulkString]:
    [h.length === 4 ? `#${h[1]}${h[1]}${h[2]}${h[2]}${h[3]}${h[3]}`
                    : h.toLowerCase()]. *)
Definition expandOrLower (h : string) : string :=
  if (String.length h =? 4)%nat then
    match h with
    | String _ (String h1 (String h2 (String h3 _))) =>
        String "#" (String h1 (String h1 (String h2 (String h2
          (String h3 (String h3 ""))))))
    | _ => h
    end
  else Js.toLowerCase h.

(** A colour code in the form bulk apply writes six-digit codes in: a [#]
    and six hex digits, none of them a capital. *)
Definition canonical (v : string) : bool :=
  (hexTest 6 v && Js.noUpper v)%bool.

(** *** Handlers *)

(** [updateColor]: [setColors(prev => ({ ...prev, [key]: value }))]. *)
Definition updateColor (key : ColorKey.t) (value : string) (prev : Colors)
  : Colors :=
  set key value prev.

(** [ColorRow.handleHexChange] with [onChange = updateColor], as the dialog
    wires it.  The state is the row's text field and the palette. *)
Definition handleHexChange (colorKey : ColorKey.t) (v : string)
    (st : string * Colors) : string * Colors :=
  let hexInput := v in
  if (hexTest 3 v || hexTest 6 v)%bool
  then (hexInput, updateColor colorKey v (snd st))
  else (hexInput, snd st).

(** The colour codes [applyBulkString] extracts from the pasted text. *)
Definition bulkHexes (raw : string) : list string :=
  let hexes := map expandOrLower (matchHexCodes raw) in
  if (length hexes =? 0)%nat
  then map (fun h => String "#" (Js.toLowerCase h)) (chunks6 (stripNonHex raw))
  else hexes.

(** [hexes.forEach((hex, i) => { next[COLOR_KEYS_IN_ORDER[i]] = hex; })],
    started at index [i].  The caller slices [hexes] to the number of
    keys, so the key of every index it reaches exists. *)
Fixpoint assignFrom (i : nat) (hexes : list string) (next : Colors) : Colors :=
  match hexes with
  | [] => next
  | hex :: rest =>
      assignFrom (S i) rest
        match nth_error COLOR_KEYS_IN_ORDER i with
        | Some k => set k hex next
        | None => next
        end
  end.

(** [applyBulkString]: no state update at all when no code is found. *)
Definition applyBulkString (raw : string) (prev : Colors) : Colors :=
  let hexes := bulkHexes raw in
  if (length hexes =? 0)%nat then prev
  else assignFrom 0 (firstn (length COLOR_KEYS_IN_ORDER) hexes) prev.

(** [copyPalette]: the string written to the clipboard. *)
Definition copyPalette (colors : Colors) : string :=
  Js.join " " (map (fun k => get k colors) COLOR_KEYS_IN_ORDER).

(** The palette an accepted three-digit edit of the first key leaves. *)
Definition shortWhite : Colors :=
  snd (handleHexChange ColorKey.bg "#FFF" ("", DEFAULT_COLORS)).

End Palette.

(** ** Style theming engine *)

Module Theme.

(** A JSON value, as the style document holds them (paint values are
    colours, numbers or expressions). *)
Inductive json : Type :=
  | JNull
  | JBool (b : bool)
  | JNum (x : float)
  | JStr (s : string)
  | JArr (items : list json)
  | JObj (props : list (string * json)).

(** A layer of the raw style document: the properties [applyAppleStyle]
    reads ([id], [source-layer], [type], [paint]; the first two and the
    paint block may be absent) and every other property, which the object
    spread [{ ...layer }] copies unread. *)
Record Layer : Type := mkLayer {
  layer_id : option string;
  source_layer : option string;
  layer_type : string;
  paint : option (gmap string json);
  layer_rest : list (string * json)
}.

Record StyleDoc : Type := mkStyleDoc {
  layers : list Layer;
  doc_rest : list (string * json)
}.

(** [{ ...l, paint: p }] *)
Definition withPaint (l : Layer) (p : gmap string json) : Layer :=
  {| layer_id := layer_id l;
     source_layer := source_layer l;
     layer_type := layer_type l;
     paint := Some p;
     layer_rest := layer_rest l |}.

(** The callback of [.map] in [applyAppleStyle]: one layer recoloured with
    the palette [C].  [p] is the copy [{ ...(layer.paint ?? {}) }]; the
    branches are those of the source, in its order. *)
Definition themeLayer (C : Palette.Colors) (layer : Layer) : Layer :=
  let id := Js.toLowerCase (default "" (layer_id layer)) in
  let src := Js.toLowerCase (default "" (source_layer layer)) in
  let t := layer_type layer in
  let p := default ∅ (paint layer) in
  let color (k : string) (c : string) (q : gmap string json) :=
    <[k := JStr c]> q in
  let opacity (k : string) (x : float) (q : gmap string json) :=
    <[k := JNum x]> q in
  if (t =? "background")%string then
    withPaint layer (color "background-color" (Palette.bg C) ∅)
  else if ((src =? "water")%string && (t =? "fill")%string)%bool then
    withPaint layer
      (opacity "fill-opacity" 1%float
         (color "fill-color" (Palette.water C) ∅))
  else if ((src =? "waterway")%string && (t =? "line")%string)%bool then
    withPaint layer (color "line-color" (Palette.waterLine C) p)
  else if ((src =? "landcover")%string && (t =? "fill")%string)%bool then
    if (Js.includes "grass" id || Js.includes "meadow" id)%bool then
      withPaint layer
        (opacity "fill-opacity" 0.7%float (color "fill-color" (Palette.grass C) p))
    else if (Js.includes "wood" id || Js.includes "forest" id
             || Js.includes "tree" id)%bool then
      withPaint layer
        (opacity "fill-opacity" 0.8%float (color "fill-color" (Palette.wood C) p))
    else if (Js.includes "sand" id || Js.includes "beach" id)%bool then
      withPaint layer (color "fill-color" (Palette.sand C) p)
    else if (Js.includes "glacier" id || Js.includes "ice" id
             || Js.includes "snow" id)%bool then
      withPaint layer (color "fill-color" (Palette.glacier C) p)
    else withPaint layer p
  else if ((src =? "landuse")%string && (t =? "fill")%string)%bool then
    if (Js.includes "park" id || Js.includes "garden" id
        || Js.includes "recreation" id || Js.includes "cemetery" id
        || Js.includes "grass" id)%bool then
      withPaint layer
        (opacity "fill-opacity" 0.8%float (color "fill-color" (Palette.park C) p))
    else if (Js.includes "wood" id || Js.includes "forest" id)%bool then
      withPaint layer
        (opacity "fill-opacity" 0.7%float (color "fill-color" (Palette.wood C) p))
    else if Js.includes "residential" id then
      withPaint layer (color "fill-color" (Palette.residential C) p)
    else if (Js.includes "commercial" id || Js.includes "retail" id)%bool then
      withPaint layer (color "fill-color" (Palette.commercial C) p)
    else if Js.includes "industrial" id then
      withPaint layer (color "fill-color" (Palette.industrial C) p)
    else withPaint layer p
  else if (((src =? "park")%string || Js.startsWith "park" id)
           && (t =? "fill")%string)%bool then
    withPaint layer
      (opacity "fill-opacity" 0.8%float (color "fill-color" (Palette.park C) p))
  else if (src =? "building")%string then
    if (t =? "fill")%string then
      withPaint layer
        (opacity "fill-opacity" 1%float
           (color "fill-color" (Palette.building C) ∅))
    else if (t =? "fill-extrusion")%string then
      withPaint layer
        (opacity "fill-extrusion-opacity" 0.85%float
           (color "fill-extrusion-color" (Palette.building C) ∅))
    else withPaint layer p
  else if ((src =? "aeroway")%string && (t =? "fill")%string)%bool then
    withPaint layer (color "fill-color" (Palette.aeroway C) p)
  else if ((src =? "transportation")%string && (t =? "line")%string)%bool then
    let casing := (Js.includes "casing" id || Js.includes "_case" id
                   || Js.includes "outline" id)%bool in
    if Js.includes "motorway" id then
      withPaint layer
        (color "line-color"
           (if casing then Palette.motorwayCasing C else Palette.motorway C) p)
    else if Js.includes "trunk" id then
      withPaint layer
        (color "line-color"
           (if casing then Palette.trunkCasing C else Palette.trunk C) p)
    else if Js.includes "primary" id then
      withPaint layer
        (color "line-color"
           (if casing then Palette.primaryCasing C else Palette.primary C) p)
    else if (Js.includes "secondary" id || Js.includes "tertiary" id)%bool then
      withPaint layer
        (color "line-color"
           (if casing then Palette.secondaryCasing C
            else Palette.secondary C) p)
    else if (Js.includes "path" id || Js.includes "track" id
             || Js.includes "pedestrian" id || Js.includes "footway" id
             || Js.includes "cycleway" id)%bool then
      withPaint layer (color "line-color" (Palette.path C) p)
    else if (Js.includes "rail" id || Js.includes "transit" id)%bool then
      withPaint layer (color "line-color" (Palette.rail C) p)
    else
      withPaint layer
        (color "line-color"
           (if casing then Palette.minorCasing C else Palette.minor C) p)
  else if ((src =? "boundary")%string && (t =? "line")%string)%bool then
    withPaint layer
      (opacity "line-opacity" 0.6%float (color "line-color" (Palette.boundary C) p))
  else withPaint layer p.

(** [applyAppleStyle]: symbol layers are filtered out, every other layer is
    recoloured, and the rest of the document is copied ([{ ...raw, layers }]). *)
Definition applyAppleStyle (raw : StyleDoc) (C : Palette.Colors) : StyleDoc :=
  {| layers :=
       map (themeLayer C)
         (List.filter (fun l => negb (layer_type l =? "symbol")%string)
            (layers raw));
     doc_rest := doc_rest raw |}.

(** Two layers to run the engine on: a runway and a lake, each with a
    paint property of its own. *)
Definition runway : Layer :=
  {| layer_id := Some "aeroway_runway";
     source_layer := Some "aeroway";
     layer_type := "fill";
     paint := Some (<["fill-opacity" := JNum 0.5%float]> ∅);
     layer_rest := [] |}.

Definition lake : Layer :=
  {| layer_id := Some "Water";
     source_layer := Some "WATER";
     layer_type := "fill";
     paint := Some (<["fill-antialias" := JBool false]> ∅);
     layer_rest := [] |}.

End Theme.

(** ** Geocode search: the debounced effect on [query] *)

Module Search.

Record NominatimResult : Type := mkResult {
  place_id : Z;
  display_name : string;
  lat : string;
  lon : string;
  result_type : string;
  result_class : string;
  importance : float;
  boundingbox : string * string * string * string
}.

(** The hooks the effect reads and writes, and its environment: the clock
    (milliseconds), the pending [setTimeout] of the effect (when it is due
    and the [query] its closure holds), and the text of every request
    [fetch] was called for, oldest first. *)
Record State : Type := mkState {
  query : string;
  results : list NominatimResult;
  isSearching : bool;
  timer : option (nat * string);
  clock : nat;
  fetches : list string
}.

Definition DELAY : nat := 420.

(** The state when the component has mounted: the effect has run once on
    the empty query. *)
Definition mounted : State :=
  {| query := ""; results := []; isSearching := false;
     timer := None; clock := 0; fetches := [] |}.

(** The effect's clean-up, [clearTimeout(t)]. *)
Definition cleanup (st : State) : State :=
  {| query := query st; results := results st;
     isSearching := isSearching st; timer := None;
     clock := clock st; fetches := fetches st |}.

(** The effect's body for the current [query]. *)
Definition effect (st : State) : State :=
  if (Js.trim (query st) =? "")%string then
    {| query := query st; results := [];
       isSearching := isSearching st; timer := None;
       clock := clock st; fetches := fetches st |}
  else
    {| query := query st; results := results st;
       isSearching := isSearching st;
       timer := Some (clock st + DELAY, query st);
       clock := clock st; fetches := fetches st |}.

(** [setQuery(q)]: a state update with the value the hook already holds
    renders nothing and leaves the effect alone; a new value runs the
    clean-up of the last effect and then the effect (dependency [[query]]). *)
Definition setQuery (q : string) (st : State) : State :=
  if (q =? query st)%string then st
  else
    effect (cleanup
      {| query := q; results := results st;
         isSearching := isSearching st; timer := timer st;
         clock := clock st; fetches := fetches st |}).

(** The timer's callback up to its [await]: the request goes out for the
    query of the closure. *)
Definition fire (q : string) (st : State) : State :=
  {| query := query st; results := results st;
     isSearching := true; timer := None;
     clock := clock st; fetches := (fetches st ++ [q])%list |}.

(** [dt] milliseconds pass; a pending timer that is due by then fires. *)
Definition elapse (dt : nat) (st : State) : State :=
  let st' :=
    {| query := query st; results := results st;
       isSearching := isSearching st; timer := timer st;
       clock := clock st + dt; fetches := fetches st |} in
  match timer st with
  | Some (due, q) => if (due <=? clock st')%nat then fire q st' else st'
  | None => st'
  end.

(** The rest of the callback: the response ([None] when the request or its
    parsing failed) replaces the results; [finally] drops the flag. *)
Definition settle (response : option (list NominatimResult)) (st : State)
  : State :=
  {| query := query st; results := default [] response;
     isSearching := false; timer := timer st;
     clock := clock st; fetches := fetches st |}.

(** A burst of typing: each change of the text comes [gap] milliseconds
    after the event before it. *)
Definition typing (changes : list (nat * string)) (st : State) : State :=
  fold_left (fun s ch => setQuery (snd ch) (elapse (fst ch) s)) changes st.

(** Every entry of a burst is a change: its text differs from the text the
    input held before it. *)
Fixpoint changing (current : string) (changes : list (nat * string)) : Prop :=
  match changes with
  | [] => True
  | ch :: rest => snd ch <> current /\ changing (snd ch) rest
  end.

(** The text of the last change ([current] when there is none). *)
Definition finalQuery (current : string) (changes : list (nat * string))
  : string :=
  List.last (map snd changes) current.

(** The debounce timer of the current query is pending and was set at the
    current time, or the query is blank and no timer is pending. *)
Definition armed (st : State) : Prop :=
  timer st =
    if (Js.trim (query st) =? "")%string then None
    else Some (clock st + DELAY, query st).

End Search.

(** ** Camera: keyboard navigation and selection tracking *)

Module Camera.

(** Commands to the rendering surface. *)
Inductive MapCmd : Type :=
  | PanBy (dx dy : Z)
  | ZoomTo (zoom : float)
  | FitBounds (west south east north : float).

Definition isPan (c : MapCmd) : bool :=
  match c with PanBy _ _ => true | _ => false end.

Definition isZoom (c : MapCmd) : bool :=
  match c with ZoomTo _ => true | _ => false end.

(** The rendering surface as the tick sees it: its zoom and the pixel
    offset the pans have added up to.  A command without animation takes
    effect at once, so [getZoom] after [zoomTo] reads the new zoom. *)
Record Surface : Type := mkSurface {
  zoom : float;
  offset : Z * Z
}.

Definition panBy (dx dy : Z) (m : Surface) : Surface * list MapCmd :=
  ({| zoom := zoom m; offset := (fst (offset m) + dx, snd (offset m) + dy)%Z |},
   [PanBy dx dy]).

Definition zoomTo (z : float) (m : Surface) : Surface * list MapCmd :=
  ({| zoom := z; offset := offset m |}, [ZoomTo z]).

Definition PAN : Z := 5.
Definition ZOOM : float := 0.03%float.

Definition NAV_KEYS : gset string :=
  {[ "ArrowUp"; "ArrowDown"; "ArrowLeft"; "ArrowRight"; "+"; "="; "-" ]}.

(** [keys.has(k)] *)
Definition has (keys : gset string) (k : string) : bool :=
  bool_decide (k ∈ keys).

(** [onKeyDown]: ignored while the search input has the focus or the theme
    dialog is open; any other key, navigation key or not, joins the set. *)
Definition onKeyDown (inputFocused themeOpen : bool) (key : string)
    (keys : gset string) : gset string :=
  if inputFocused then keys
  else if themeOpen then keys
  else {[ key ]} ∪ keys.

Definition onKeyUp (key : string) (keys : gset string) : gset string :=
  keys ∖ {[ key ]}.

(** One animation frame: the surface after the tick and the commands the
    tick issued, in order.  The held keys are read, never written; the tick
    ends by requesting the next frame. *)
Definition tick (map : option Surface) (keys : gset string)
  : option Surface * list MapCmd :=
  match map with
  | Some m =>
      if (0 <? size keys)%nat then
        let dx := 0%Z in
        let dy := 0%Z in
        let dy := if has keys "ArrowUp" then (dy - PAN)%Z else dy in
        let dy := if has keys "ArrowDown" then (dy + PAN)%Z else dy in
        let dx := if has keys "ArrowLeft" then (dx - PAN)%Z else dx in
        let dx := if has keys "ArrowRight" then (dx + PAN)%Z else dx in
        let '(m, c1) :=
          if (negb (dx =? 0)%Z || negb (dy =? 0)%Z)%bool
          then panBy dx dy m else (m, []) in
        let '(m, c2) :=
          if (has keys "+" || has keys "=")%bool
          then zoomTo (zoom m + ZOOM)%float m else (m, []) in
        let '(m, c3) :=
          if has keys "-"
          then zoomTo (zoom m - ZOOM)%float m else (m, []) in
        (Some m, (c1 ++ c2 ++ c3)%list)
      else (Some m, [])
  | None => (None, [])
  end.

(** [k] animation frames in a row with the same keys held. *)
Fixpoint hold (k : nat) (keys : gset string) (m : Surface)
  : Surface * list MapCmd :=
  match k with
  | O => (m, [])
  | S k' =>
      match tick (Some m) keys with
      | (Some m', cmds) =>
          let '(m'', later) := hold k' keys m' in (m'', (cmds ++ later)%list)
      | (None, cmds) => (m, cmds)
      end
  end.

Record ViewState : Type := mkViewState {
  longitude : float;
  latitude : float;
  view_zoom : float
}.

(** The selection: the [selectedName] hook, and the refs
    [searchedCoordsRef] ([lon], [lat]) and [flyingRef]. *)
Record State : Type := mkState {
  viewState : ViewState;
  selectedName : option string;
  searchedCoords : option (float * float);
  flying : bool
}.

(** The surface at the time of a move event, by the one question
    [handleMove] asks it: [map.getBounds().contains(coords)]. *)
Definition Viewport : Type := float * float -> bool.

(** [handleMove]; [map] is [None] while the surface is not mounted. *)
Definition handleMove (e_viewState : ViewState) (map : option Viewport)
    (st : State) : State :=
  let st :=
    {| viewState := e_viewState; selectedName := selectedName st;
       searchedCoords := searchedCoords st; flying := flying st |} in
  if flying st then st
  else
    match searchedCoords st with
    | Some coords =>
        match map with
        | Some contains =>
            if negb (contains coords) then
              {| viewState := viewState st; selectedName := None;
                 searchedCoords := None; flying := flying st |}
            else st
        | None => st
        end
    | None => st
    end.

(** The [moveend] listener [flyTo] registers once. *)
Definition onMoveEnd (st : State) : State :=
  {| viewState := viewState st; selectedName := selectedName st;
     searchedCoords := searchedCoords st; flying := false |}.

Section FlyTo.

(** The built-in [parseFloat]. *)
Variable parseFloat : string -> float.

(** [flyTo], on the selection and the surface (it also empties the query
    and the results and drops the [captured] flag). *)
Definition flyTo (result : Search.NominatimResult) (map : bool) (st : State)
  : State * list MapCmd :=
  if map then
    let '(south, north, west, east) := Search.boundingbox result in
    ({| viewState := viewState st;
        selectedName := Some (Search.display_name result);
        searchedCoords :=
          Some (parseFloat (Search.lon result),
                parseFloat (Search.lat result));
        flying := true |},
     [FitBounds (parseFloat west) (parseFloat south)
        (parseFloat east) (parseFloat north)])
  else (st, []).

End FlyTo.

(** Camera events after a selection was made. *)
Inductive Event : Type :=
  | Move (e_viewState : ViewState) (map : option Viewport)
  | MoveEnd.

Definition step (st : State) (e : Event) : State :=
  match e with
  | Move v map => handleMove v map st
  | MoveEnd => onMoveEnd st
  end.

Definition run (events : list Event) (st : State) : State :=
  fold_left step events st.

(** A surface, a viewport that is a box of longitudes and latitudes, and a
    state with a selection, to run the handlers on. *)
Definition surface0 : Surface := {| zoom := 2.5%float; offset := (0, 0)%Z |}.

Definition box (west south east north : float) : Viewport :=
  fun coords =>
    ((west <=? fst coords)%float && (fst coords <=? east)%float
     && (south <=? snd coords)%float && (snd coords <=? north)%float)%bool.

Definition linzSelected : State :=
  {| viewState := {| longitude := 14.29; latitude := 48.31; view_zoom := 12 |};
     selectedName := Some "Linz";
     searchedCoords := Some (14.29%float, 48.31%float);
     flying := false |}.

End Camera.

(** ** Capture pipeline *)

Module Capture.

Record State : Type := mkState {
  isCapturing : bool;
  captured : bool
}.

(** What the pipeline does to its environment. *)
Inductive Effect : Type :=
  | RequestFrame
  | DrawImage
  | ToBlob
  | CreateObjectURL
  | Download (name : string)
  | RevokeObjectURL
  | SetTimeout (ms : nat).

Definition isDownload (e : Effect) : bool :=
  match e with Download _ => true | _ => false end.

(** [capture]: nothing without a surface; otherwise the flag is raised and
    the drawing is left to the next animation frame. *)
Definition capture (map : bool) (st : State) : State * list Effect :=
  if map then
    ({| isCapturing := true; captured := captured st |}, [RequestFrame])
  else (st, []).

(** The animation-frame callback: the centred square is drawn to the
    output canvas and the encoding is requested. *)
Definition onFrame (st : State) : State * list Effect :=
  (st, [DrawImage; ToBlob]).

(** The callback of [out.toBlob]; [blob] is [None] when the canvas could
    not be encoded, [now] is [Date.now()]. *)
Definition onBlob (blob : option string) (now : Z) (st : State)
  : State * list Effect :=
  match blob with
  | None => (st, [])
  | Some _ =>
      ({| isCapturing := false; captured := true |},
       [CreateObjectURL;
        Download ("map-" +:+ NilZero.string_of_int (Z.to_int now) +:+ ".png");
        RevokeObjectURL;
        SetTimeout 2000])
  end.

(** The timeout set on success: [setCaptured(false)]. *)
Definition onCapturedTimeout (st : State) : State :=
  {| isCapturing := isCapturing st; captured := false |}.

End Capture.

(** ** Vocabulary for the further properties *)

Module ThemeKeys.

(** The paint properties the theming engine writes. *)
Definition themeKeys : list string :=
  [ "background-color"; "fill-color"; "fill-opacity"; "line-color";
    "line-opacity"; "fill-extrusion-color"; "fill-extrusion-opacity" ].

(** The layers whose paint block is replaced, by the tests of the source:
    background, water fill, and building fill or fill-extrusion that no
    earlier branch takes. *)
Definition replaced (layer : Theme.Layer) : bool :=
  let id := Js.toLowerCase (default "" (Theme.layer_id layer)) in
  let src := Js.toLowerCase (default "" (Theme.source_layer layer)) in
  let t := Theme.layer_type layer in
  ((t =? "background")%string
   || (src =? "water")%string && (t =? "fill")%string
   || (src =? "building")%string
      && ((t =? "fill")%string && negb (Js.startsWith "park" id)
          || (t =? "fill-extrusion")%string))%bool.

(** A road layer with a width and a colour of its own. *)
Definition road : Theme.Layer :=
  {| Theme.layer_id := Some "highway_primary_casing";
     Theme.source_layer := Some "transportation";
     Theme.layer_type := "line";
     Theme.paint :=
       Some (<["line-width" := Theme.JNum 2%float]>
               (<["line-color" := Theme.JStr "#000"]> ∅));
     Theme.layer_rest := [] |}.

End ThemeKeys.

(** ** Palette events *)

Module PaletteEvents.

(** What the theme dialog can do to the palette: a hex text field edited
    ([handleHexChange]), the native colour picker of a swatch (its
    [onChange] calls [updateColor] with the picker's value, unchecked),
    a bulk paste, and the reset button ([setColors(DEFAULT_COLORS)]). *)
Inductive Event : Type :=
  | Edit (key : ColorKey.t) (v : string)
  | Pick (key : ColorKey.t) (v : string)
  | Paste (raw : string)
  | Reset.

Definition apply (e : Event) (c : Palette.Colors) : Palette.Colors :=
  match e with
  | Edit key v => snd (Palette.handleHexChange key v ("", c))
  | Pick key v => Palette.updateColor key v c
  | Paste raw => Palette.applyBulkString raw c
  | Reset => Palette.DEFAULT_COLORS
  end.

Definition run (events : list Event) (c : Palette.Colors) : Palette.Colors :=
  fold_left (fun c e => apply e c) events c.

(** A colour input reports a [#] and six hex digits; the other events need
    no promise from the browser. *)
Definition pickerKeepsItsPromise (e : Event) : Prop :=
  match e with
  | Pick _ v => Palette.hexTest 6 v = true
  | _ => True
  end.

(** Every value of the palette is a colour code the text field accepts. *)
Definition valid (c : Palette.Colors) : Prop :=
  forall k, Palette.isHexCode (Palette.get k c).

End PaletteEvents.

(** ** Loading the style and re-theming *)

Module Loader.

(** The ref [rawStyleRef] and the hooks [mapStyle] and [colors]. *)
Record State : Type := mkState {
  rawStyle : option Theme.StyleDoc;
  mapStyle : option Theme.StyleDoc;
  colors : Palette.Colors
}.

Definition initial : State :=
  {| rawStyle := None; mapStyle := None; colors := Palette.DEFAULT_COLORS |}.




(** The effect on [[colors]]: nothing without a cached style. *)
Definition colorsEffect (st : State) : State :=
  match rawStyle st with
  | None => st
  | Some raw =>
      {| rawStyle := rawStyle st;
         mapStyle := Some (Theme.applyAppleStyle raw (colors st));
         colors := colors st |}
  end.

(** A palette event and the effect after it.  (The effect is skipped when
    the event set no new palette; running it then changes nothing, since
    the style it would set is the one of the unchanged palette.) *)
Definition onPalette (st : State) (e : PaletteEvents.Event) : State :=
  colorsEffect
    {| rawStyle := rawStyle st; mapStyle := mapStyle st;
       colors := PaletteEvents.apply e (colors st) |}.

Definition run (events : list PaletteEvents.Event) (st : State) : State :=
  fold_left onPalette events st.

End Loader.

(** ** Debounce in general *)

Module Debounce.

(** The texts a burst leaves standing for the whole delay, in order: a text
    counts when the next change (or, for the last text, the end of the
    wait) comes [DELAY] or more after it and it is not blank. *)
Fixpoint settled (current : string) (changes : list (nat * string))
    (wait : nat) : list string :=
  match changes with
  | [] =>
      if ((Search.DELAY <=? wait)%nat
          && negb (Js.trim current =? "")%string)%bool
      then [current] else []
  | ch :: rest =>
      ((if ((Search.DELAY <=? fst ch)%nat
            && negb (Js.trim current =? "")%string)%bool
        then [current] else [])
       ++ settled (snd ch) rest wait)%list
  end.

End Debounce.

(** ** The search box with its highlight, and selecting a result *)

Module App.

(** The search slice, the [highlightedIndex] hook, the selection slice and
    the capture flags, which [flyTo] touches together. *)
Record State : Type := mkState {
  search : Search.State;
  highlightedIndex : Z;
  camera : Camera.State;
  capture : Capture.State
}.

Definition mounted : State :=
  {| search := Search.mounted;
     highlightedIndex := -1;
     camera :=
       {| Camera.viewState :=
            {| Camera.longitude := 10; Camera.latitude := 30;
               Camera.view_zoom := 2.5 |};
          Camera.selectedName := None;
          Camera.searchedCoords := None;
          Camera.flying := false |};
     capture := {| Capture.isCapturing := false; Capture.captured := false |} |}.

(** [setResults(rs)].  Every call passes a new array, so the effect on
    [[results]] runs after it: [setHighlightedIndex(-1)]. *)
Definition setResults (rs : list Search.NominatimResult) (app : State) : State :=
  {| search :=
       {| Search.query := Search.query (search app);
          Search.results := rs;
          Search.isSearching := Search.isSearching (search app);
          Search.timer := Search.timer (search app);
          Search.clock := Search.clock (search app);
          Search.fetches := Search.fetches (search app) |};
     highlightedIndex := -1;
     camera := camera app;
     capture := capture app |}.

(** [setQuery(q)] with the debounce effect; the effect calls
    [setResults([])] when it runs on a blank text, and that resets the
    highlight. *)
Definition setQuery (q : string) (app : State) : State :=
  {| search := Search.setQuery q (search app);
     highlightedIndex :=
       if (negb (q =? Search.query (search app))%string
           && (Js.trim q =? "")%string)%bool
       then -1 else highlightedIndex app;
     camera := camera app;
     capture := capture app |}.

Definition elapse (dt : nat) (app : State) : State :=
  {| search := Search.elapse dt (search app);
     highlightedIndex := highlightedIndex app;
     camera := camera app;
     capture := capture app |}.

(** A response lands: [setResults] in the timer's callback. *)
Definition settle (response : option (list Search.NominatimResult))
    (app : State) : State :=
  {| search := Search.settle response (search app);
     highlightedIndex := -1;
     camera := camera app;
     capture := capture app |}.

(** [clearSearch] (and the Escape key): [setQuery(""); setResults([])]. *)
Definition clearSearch (app : State) : State :=
  setResults [] (setQuery "" app).

Section Handlers.

Variable parseFloat : string -> float.

(** [flyTo] on the whole state. *)
Definition flyTo (result : Search.NominatimResult) (map : bool) (app : State)
  : State * list Camera.MapCmd :=
  if map then
    let '(cam, cmds) := Camera.flyTo parseFloat result true (camera app) in
    let app :=
      {| search := search app; highlightedIndex := highlightedIndex app;
         camera := cam; capture := capture app |} in
    let app := setResults [] (setQuery "" app) in
    ({| search := search app; highlightedIndex := highlightedIndex app;
        camera := camera app;
        capture :=
          {| Capture.isCapturing := Capture.isCapturing (capture app);
             Capture.captured := false |} |},
     cmds)
  else (app, []).

(** [handleInputKeyDown] *)
Definition handleInputKeyDown (key : string) (map : bool) (app : State)
  : State * list Camera.MapCmd :=
  let results := Search.results (search app) in
  let withHighlight (i : Z) :=
    {| search := search app; highlightedIndex := i;
       camera := camera app; capture := capture app |} in
  if (key =? "ArrowDown")%string then
    if (length results =? 0)%nat then (app, [])
    else
      (withHighlight
         (Z.min (highlightedIndex app + 1) (Z.of_nat (length results) - 1)),
       [])
  else if (key =? "ArrowUp")%string then
    if (length results =? 0)%nat then (app, [])
    else (withHighlight (Z.max (highlightedIndex app - 1) (-1)), [])
  else if (key =? "Enter")%string then
    if (0 <=? highlightedIndex app)%Z then
      match nth_error results (Z.to_nat (highlightedIndex app)) with
      | Some result => flyTo result map app
      | None => (app, [])
      end
    else (app, [])
  else if (key =? "Escape")%string then (clearSearch app, [])
  else (app, []).

(** What can happen to the search box and the selection. *)
Inductive Event : Type :=
  | Typed (q : string)
  | Elapsed (dt : nat)
  | Responded (response : option (list Search.NominatimResult))
  | KeyDown (key : string) (map : bool)
  | Clicked (result : Search.NominatimResult) (map : bool)
  | ClearClicked
  | Moved (e_viewState : Camera.ViewState) (map : option Camera.Viewport)
  | MoveEnded.

Definition step (app : State) (e : Event) : State :=
  match e with
  | Typed q => setQuery q app
  | Elapsed dt => elapse dt app
  | Responded response => settle response app
  | KeyDown key map => fst (handleInputKeyDown key map app)
  | Clicked result map => fst (flyTo result map app)
  | ClearClicked => clearSearch app
  | Moved v map =>
      {| search := search app; highlightedIndex := highlightedIndex app;
         camera := Camera.handleMove v map (camera app);
         capture := capture app |}
  | MoveEnded =>
      {| search := search app; highlightedIndex := highlightedIndex app;
         camera := Camera.onMoveEnd (camera app);
         capture := capture app |}
  end.

Definition run (events : list Event) (app : State) : State :=
  fold_left step events app.

(** [n] presses of the same key. *)
Definition press (key : string) (n : nat) (app : State) : State :=
  Nat.iter n (fun a => fst (handleInputKeyDown key true a)) app.

End Handlers.

(** A pending debounce timer always belongs to the current, non-blank
    query. *)
Definition tidy (s : Search.State) : Prop :=
  match Search.timer s with
  | None => True
  | Some (_, q) => q = Search.query s /\ (Js.trim q =? "")%string = false
  end.

(** What every reachable state of the search box satisfies: the highlight
    is [-1] or an index of the result list, a pending timer belongs to the
    current non-blank query, and the selection has a name exactly when it
    has a coordinate. *)
Definition sound (app : State) : Prop :=
  (-1 <= highlightedIndex app
   < Z.of_nat (length (Search.results (search app))))%Z
  /\ tidy (search app)
  /\ (Camera.selectedName (camera app) = None
      <-> Camera.searchedCoords (camera app) = None).

(** A camera event of a flight under way: a move, not its end. *)
Definition isMove (e : Camera.Event) : Prop :=
  match e with
  | Camera.Move _ _ => True
  | Camera.MoveEnd => False
  end.

End App.

(** ** The held keys and the theme dialog *)

Module Keyboard.

(** [themeOpenRef] and [keysRef]. *)
Record State : Type := mkState {
  themeOpen : bool;
  keys : gset string
}.

Inductive Event : Type :=
  | Down (inputFocused : bool) (key : string)
  | Up (key : string)
  | SetThemeOpen (open : bool).

(** The key listeners, and the effect on [[themeOpen]], which runs when
    the hook changes: the ref follows the hook, and opening the dialog
    empties the set of held keys. *)
Definition step (st : State) (e : Event) : State :=
  match e with
  | Down inputFocused key =>
      {| themeOpen := themeOpen st;
         keys := Camera.onKeyDown inputFocused (themeOpen st) key (keys st) |}
  | Up key =>
      {| themeOpen := themeOpen st; keys := Camera.onKeyUp key (keys st) |}
  | SetThemeOpen open =>
      if Bool.eqb open (themeOpen st) then st
      else {| themeOpen := open; keys := if open then ∅ else keys st |}
  end.

Definition run (events : list Event) (st : State) : State :=
  fold_left step events st.

Definition keepsDialog (e : Event) : Prop :=
  match e with
  | SetThemeOpen _ => False
  | _ => True
  end.

End Keyboard.

(** ** The capture button and its callbacks *)

Module CaptureFlow.

(** Which callback of a started capture is still to come. *)
Inductive Stage : Type := Idle | AwaitFrame | AwaitBlob.

Record State : Type := mkState {
  flags : Capture.State;
  stage : Stage;
  log : list Capture.Effect
}.

Definition initial : State :=
  {| flags := {| Capture.isCapturing := false; Capture.captured := false |};
     stage := Idle;
     log := [] |}.

Inductive Event : Type :=
  | Click (map : bool)
  | Frame
  | Blob (blob : option string) (now : Z)
  | Timeout.

(** The button is rendered with [disabled={isCapturing}]: a click reaches
    [capture] only while the flag is down.  A callback runs only when it is
    the one awaited. *)
Definition step (st : State) (e : Event) : State :=
  match e with
  | Click map =>
      if Capture.isCapturing (flags st) then st
      else
        let '(f, eff) := Capture.capture map (flags st) in
        {| flags := f;
           stage := if map then AwaitFrame else stage st;
           log := (log st ++ eff)%list |}
  | Frame =>
      match stage st with
      | AwaitFrame =>
          let '(f, eff) := Capture.onFrame (flags st) in
          {| flags := f; stage := AwaitBlob; log := (log st ++ eff)%list |}
      | _ => st
      end
  | Blob blob now =>
      match stage st with
      | AwaitBlob =>
          let '(f, eff) := Capture.onBlob blob now (flags st) in
          {| flags := f; stage := Idle; log := (log st ++ eff)%list |}
      | _ => st
      end
  | Timeout =>
      {| flags := Capture.onCapturedTimeout (flags st);
         stage := stage st; log := log st |}
  end.

Definition run (events : list Event) (st : State) : State :=
  fold_left step events st.

End CaptureFlow.

(** Case analysis on the eight bits of a character. *)
Ltac bits c :=
  let b0 := fresh "b" in let b1 := fresh "b" in let b2 := fresh "b" in
  let b3 := fresh "b" in let b4 := fresh "b" in let b5 := fresh "b" in
  let b6 := fresh "b" in let b7 := fresh "b" in
  destruct c as [b0 b1 b2 b3 b4 b5 b6 b7];
  destruct b0, b1, b2, b3, b4, b5, b6, b7.

(** * Properties *)

(** ** The string model on small inputs *)

Example toLowerCase_ex : Js.toLowerCase "Water_Way-9" = "water_way-9".
Proof. reflexivity. Qed.

Example includes_ex :
  Js.includes "park" "landuse_parking" = true
  /\ Js.includes "park" "par" = false
  /\ Js.startsWith "park" "parking" = true.
Proof. repeat split; reflexivity. Qed.

Example trim_ex : Js.trim "  linz  " = "linz" /\ Js.trim "   " = "".
Proof. split; reflexivity. Qed.

(** Outside ASCII: the Kelvin sign lowers to "k", and a no-break space
    (bytes C2 A0) or a line separator (E2 80 A8) is trimmed. *)
Example toLowerCase_kelvin_ex :
  Js.toLowerCase (String "P" (String "A" (String "R"
    (String "226" (String "132" (String "170" ""))))))
  = "park".
Proof. reflexivity. Qed.

Example trim_unicode_ex :
  Js.trim (String "194" (String "160" (String "x"
    (String "226" (String "128" (String "168" ""))))))
  = "x".
Proof. reflexivity. Qed.

(** The global match on small inputs: a code needs a word boundary behind
    it, and the fallback only runs when nothing matched. *)
Example bulkHexes_ex :
  Palette.bulkHexes "#FFF #abcDEF, #12345 #1234567 #abc_ #abc-"
  = ["#FFFFFF"; "#abcdef"; "#aabbcc"]
  /\ Palette.bulkHexes "zz12 34 56 AB cd EF 1" = ["#123456"; "#abcdef"]
  /\ Palette.bulkHexes "no colours" = [].
Proof. repeat split; reflexivity. Qed.

(** ** Palette store *)

Section PaletteFacts.

Import Palette.

(** Reading a palette built by [{ ...prev, [key]: value }]. *)
Lemma get_set (k key : ColorKey.t) (value : string) (prev : Colors) :
  get k (set key value prev) = if decide (k = key) then value else get k prev.
Proof. destruct k; reflexivity. Qed.

Lemma get_set_eq (key : ColorKey.t) (value : string) (prev : Colors) :
  get key (set key value prev) = value.
Proof. rewrite get_set. destruct (decide (key = key)); congruence. Qed.

Lemma get_set_ne (k key : ColorKey.t) (value : string) (prev : Colors) :
  k <> key -> get k (set key value prev) = get k prev.
Proof. intros Hne. rewrite get_set. destruct (decide (k = key)); congruence. Qed.

(** Two palettes that agree on every key are the same object value. *)
Lemma colors_ext (a b : Colors) : (forall k, get k a = get k b) -> a = b.
Proof.
  intros H. destruct a, b.
  pose proof (H ColorKey.bg) as E; simpl in E; subst.
  pose proof (H ColorKey.water) as E; simpl in E; subst.
  pose proof (H ColorKey.waterLine) as E; simpl in E; subst.
  pose proof (H ColorKey.park) as E; simpl in E; subst.
  pose proof (H ColorKey.grass) as E; simpl in E; subst.
  pose proof (H ColorKey.wood) as E; simpl in E; subst.
  pose proof (H ColorKey.sand) as E; simpl in E; subst.
  pose proof (H ColorKey.glacier) as E; simpl in E; subst.
  pose proof (H ColorKey.residential) as E; simpl in E; subst.
  pose proof (H ColorKey.commercial) as E; simpl in E; subst.
  pose proof (H ColorKey.industrial) as E; simpl in E; subst.
  pose proof (H ColorKey.building) as E; simpl in E; subst.
  pose proof (H ColorKey.aeroway) as E; simpl in E; subst.
  pose proof (H ColorKey.boundary) as E; simpl in E; subst.
  pose proof (H ColorKey.motorway) as E; simpl in E; subst.
  pose proof (H ColorKey.motorwayCasing) as E; simpl in E; subst.
  pose proof (H ColorKey.trunk) as E; simpl in E; subst.
  pose proof (H ColorKey.trunkCasing) as E; simpl in E; subst.
  pose proof (H ColorKey.primary) as E; simpl in E; subst.
  pose proof (H ColorKey.primaryCasing) as E; simpl in E; subst.
  pose proof (H ColorKey.secondary) as E; simpl in E; subst.
  pose proof (H ColorKey.secondaryCasing) as E; simpl in E; subst.
  pose proof (H ColorKey.minor) as E; simpl in E; subst.
  pose proof (H ColorKey.minorCasing) as E; simpl in E; subst.
  pose proof (H ColorKey.path) as E; simpl in E; subst.
  pose proof (H ColorKey.rail) as E; simpl in E; subst.
  reflexivity.
Qed.

(** The fixed key order lists every key once. *)
Lemma keys_length : length COLOR_KEYS_IN_ORDER = 26.
Proof. reflexivity. Qed.

Lemma keys_NoDup : List.NoDup COLOR_KEYS_IN_ORDER.
Proof.
  apply NoDup_ListNoDup.
  apply (bool_decide_unpack (NoDup COLOR_KEYS_IN_ORDER)).
  vm_compute. exact I.
Qed.

Lemma keys_complete (k : ColorKey.t) :
  exists j, nth_error COLOR_KEYS_IN_ORDER j = Some k.
Proof.
  assert (Hin : List.In k COLOR_KEYS_IN_ORDER)
    by (destruct k; vm_compute; tauto).
  apply List.In_nth_error in Hin. exact Hin.
Qed.

Lemma keys_index_inj (i j : nat) (k : ColorKey.t) :
  nth_error COLOR_KEYS_IN_ORDER i = Some k ->
  nth_error COLOR_KEYS_IN_ORDER j = Some k -> i = j.
Proof.
  intros Hi Hj.
  assert (Hlt : i < length COLOR_KEYS_IN_ORDER)
    by (apply nth_error_Some; congruence).
  pose proof keys_NoDup as Hnd.
  rewrite List.NoDup_nth_error in Hnd.
  apply Hnd; [exact Hlt | congruence].
Qed.

(** What the indexed [forEach] of bulk apply leaves at the key of position
    [j]: the code of the same position when there is one, otherwise what was
    there before. *)
Lemma assignFrom_get (hexes : list string) :
  forall (i j : nat) (k : ColorKey.t) (next : Colors),
    nth_error COLOR_KEYS_IN_ORDER j = Some k ->
    get k (assignFrom i hexes next) =
      match (if (i <=? j)%nat then nth_error hexes (j - i) else None) with
      | Some hex => hex
      | None => get k next
      end.
Proof.
  induction hexes as [|hex rest IH]; intros i j k next Hj.
  - simpl. destruct (i <=? j)%nat; [destruct (j - i) |]; reflexivity.
  - simpl assignFrom. rewrite (IH (S i) j k _ Hj).
    destruct (S i <=? j)%nat eqn:HSi.
    + apply Nat.leb_le in HSi.
      assert (Hle : (i <=? j)%nat = true) by (apply Nat.leb_le; lia).
      rewrite Hle. replace (j - i) with (S (j - S i)) by lia. simpl.
      destruct (nth_error rest (j - S i)) as [h|]; [reflexivity |].
      destruct (nth_error COLOR_KEYS_IN_ORDER i) as [ki|] eqn:Hi;
        [| reflexivity].
      apply get_set_ne. intros ->.
      pose proof (keys_index_inj _ _ _ Hi Hj). lia.
    + apply Nat.leb_gt in HSi.
      destruct (i <=? j)%nat eqn:Hle.
      * apply Nat.leb_le in Hle. assert (i = j) by lia. subst i.
        rewrite Nat.sub_diag. simpl. rewrite Hj. apply get_set_eq.
      * apply Nat.leb_gt in Hle.
        destruct (nth_error COLOR_KEYS_IN_ORDER i) as [ki|] eqn:Hi;
          [| reflexivity].
        apply get_set_ne. intros ->.
        pose proof (keys_index_inj _ _ _ Hi Hj). lia.
Qed.

(** Bulk apply at the key of position [j]. *)
Lemma applyBulkString_get (raw : string) (prev : Colors) (j : nat)
    (k : ColorKey.t) :
  nth_error COLOR_KEYS_IN_ORDER j = Some k ->
  get k (applyBulkString raw prev) =
    match nth_error (bulkHexes raw) j with
    | Some hex => hex
    | None => get k prev
    end.
Proof.
  intros Hj. unfold applyBulkString.
  assert (Hlt : j < length COLOR_KEYS_IN_ORDER)
    by (apply nth_error_Some; congruence).
  destruct (length (bulkHexes raw) =? 0)%nat eqn:Hlen.
  - apply Nat.eqb_eq in Hlen.
    destruct (bulkHexes raw); [destruct j; reflexivity | discriminate].
  - rewrite (assignFrom_get _ 0 j k prev Hj).
    change (0 <=? j)%nat with true. cbv iota.
    rewrite Nat.sub_0_r, nth_error_firstn.
    destruct (j <? length COLOR_KEYS_IN_ORDER)%nat eqn:Hjlt; [reflexivity |].
    apply Nat.ltb_ge in Hjlt. lia.
Qed.

(** *** Lowering strings of hex digits *)

(** On a character below 128 lowering works character by character. *)
Lemma toLowerCase_ascii (b0 b1 b2 b3 b4 b5 b6 : bool) (r : string) :
  let c := Ascii b0 b1 b2 b3 b4 b5 b6 false in
  Js.toLowerCase (String c r) = String (Js.lowerAscii c) (Js.toLowerCase r).
Proof.
  destruct r as [|c2 [|c3 r3]];
    destruct b0, b1, b2, b3, b4, b5, b6; reflexivity.
Qed.

Lemma toLowerCase_hex_cons (c : ascii) (r : string) :
  isHexDigit c = true ->
  Js.toLowerCase (String c r) = String (Js.lowerAscii c) (Js.toLowerCase r).
Proof.
  intros Hc. bits c; try discriminate Hc; apply toLowerCase_ascii.
Qed.

Lemma lowerAscii_hex (c : ascii) :
  isHexDigit c = true ->
  isHexDigit (Js.lowerAscii c) = true /\ Js.isUpper (Js.lowerAscii c) = false.
Proof. intros Hc. bits c; try discriminate Hc; split; reflexivity. Qed.

Lemma toLowerCase_allHex (r : string) :
  allHex r = true ->
  allHex (Js.toLowerCase r) = true
  /\ String.length (Js.toLowerCase r) = String.length r
  /\ Js.noUpper (Js.toLowerCase r) = true.
Proof.
  induction r as [|c r IH]; intros Hr.
  - repeat split.
  - simpl in Hr. apply andb_true_iff in Hr as [Hc Hr].
    rewrite (toLowerCase_hex_cons c r Hc).
    destruct (IH Hr) as (Ha & Hl & Hu).
    destruct (lowerAscii_hex c Hc) as [Hh Hn].
    simpl. rewrite Hh, Hn, Ha, Hl, Hu. repeat split.
Qed.

Lemma toLowerCase_hash (r : string) :
  Js.toLowerCase (String "#" r) = String "#" (Js.toLowerCase r).
Proof. apply (toLowerCase_ascii true true false false false true false). Qed.

(** *** What the regular expression of bulk apply can match *)

Lemma length_append (a b : string) :
  String.length (a +:+ b) = String.length a + String.length b.
Proof. induction a as [|c a IH]; simpl; [reflexivity | now rewrite IH]. Qed.

Lemma allHex_append (a b : string) :
  allHex (a +:+ b) = (allHex a && allHex b)%bool.
Proof.
  induction a as [|c a IH]; simpl; [reflexivity |].
  rewrite IH. now rewrite andb_assoc.
Qed.

Lemma takeHex_Some (n : nat) :
  forall s d rest,
    takeHex n s = Some (d, rest) ->
    String.length d = n /\ allHex d = true /\ s = d +:+ rest.
Proof.
  induction n as [|n IH]; intros s d rest H; simpl in H.
  - injection H as <- <-. repeat split.
  - destruct s as [|c r]; [discriminate |].
    destruct (isHexDigit c) eqn:Hc; [| discriminate].
    destruct (takeHex n r) as [[d' rest']|] eqn:Hr; [| discriminate].
    injection H as <- <-.
    destruct (IH _ _ _ Hr) as (Hl & Ha & Hs).
    simpl. rewrite Hl, Hc, Ha, Hs. repeat split.
Qed.

Lemma matchHexAt_code (s m : string) : matchHexAt s = Some m -> isHexCode m.
Proof.
  unfold matchHexAt. intros H.
  destruct s as [|c r]; [discriminate |].
  destruct (Ascii.eqb c "#") eqn:Hc.
  2:{ bits c; try discriminate Hc; discriminate H. }
  apply Ascii.eqb_eq in Hc. subst c.
  destruct (takeHex 3 r) as [[d3 r3]|] eqn:H3; [| discriminate].
  destruct (takeHex_Some _ _ _ _ H3) as (Hl3 & Ha3 & _).
  assert (Hshort : hexTest 3 (String "#" d3) = true)
    by (simpl; now rewrite Hl3, Ha3).
  destruct (takeHex 3 r3) as [[d6 r6]|] eqn:H6.
  - destruct (takeHex_Some _ _ _ _ H6) as (Hl6 & Ha6 & _).
    destruct (wordBoundary r6).
    + injection H as <-. right. simpl.
      now rewrite length_append, Hl3, Hl6, allHex_append, Ha3, Ha6.
    + destruct (wordBoundary r3); [| discriminate].
      injection H as <-. now left.
  - destruct (wordBoundary r3); [| discriminate].
    injection H as <-. now left.
Qed.

Lemma matchAllFrom_cons (skip : nat) (c : ascii) (r : string) :
  matchAllFrom skip (String c r) =
    match skip with
    | S k => matchAllFrom k r
    | O =>
        match matchHexAt (String c r) with
        | Some m => m :: matchAllFrom (String.length m - 1) r
        | None => matchAllFrom 0 r
        end
    end.
Proof. reflexivity. Qed.

Lemma matchAllFrom_codes (s : string) :
  forall skip, Forall isHexCode (matchAllFrom skip s).
Proof.
  induction s as [|c r IH]; intros skip.
  - constructor.
  - rewrite matchAllFrom_cons.
    destruct skip as [|k]; [| apply IH].
    destruct (matchHexAt (String c r)) as [m|] eqn:Hm; [| apply IH].
    constructor; [exact (matchHexAt_code _ _ Hm) | apply IH].
Qed.

(** The shape of a three-digit code and of its expansion. *)
Lemma hexTest3_shape (m : string) :
  hexTest 3 m = true ->
  exists a b c,
    m = String "#" (String a (String b (String c "")))
    /\ isHexDigit a = true /\ isHexDigit b = true /\ isHexDigit c = true.
Proof.
  intros H. destruct m as [|h r]; [discriminate |].
  destruct (Ascii.eqb h "#") eqn:Hh.
  2:{ bits h; try discriminate Hh; discriminate H. }
  apply Ascii.eqb_eq in Hh. subst h. simpl in H.
  destruct r as [|a [|b [|c [|x r]]]]; try discriminate H.
  simpl in H. rewrite andb_true_r in H.
  apply andb_true_iff in H as [Ha H]. apply andb_true_iff in H as [Hb Hc].
  now exists a, b, c.
Qed.

Lemma expandOrLower_hex3 (a b c : ascii) :
  expandOrLower (String "#" (String a (String b (String c "")))) =
  String "#" (String a (String a (String b (String b
    (String c (String c "")))))).
Proof. reflexivity. Qed.

Lemma hexTest6_shape (m : string) :
  hexTest 6 m = true ->
  exists r, m = String "#" r /\ String.length r = 6 /\ allHex r = true.
Proof.
  intros H. destruct m as [|h r]; [discriminate |].
  destruct (Ascii.eqb h "#") eqn:Hh.
  2:{ bits h; try discriminate Hh; discriminate H. }
  apply Ascii.eqb_eq in Hh. subst h. simpl in H.
  apply andb_true_iff in H as [Hl Ha]. apply Nat.eqb_eq in Hl.
  now exists r.
Qed.

(** A six-digit code is lowered, and lowering keeps it a six-digit code. *)
Lemma expandOrLower_hex6 (m : string) :
  hexTest 6 m = true ->
  expandOrLower m = Js.toLowerCase m
  /\ hexTest 6 (expandOrLower m) = true
  /\ Js.noUpper (expandOrLower m) = true.
Proof.
  intros H. destruct (hexTest6_shape m H) as (r & -> & Hl & Ha).
  assert (Hex : expandOrLower (String "#" r) = Js.toLowerCase (String "#" r)).
  { unfold expandOrLower. simpl String.length. rewrite Hl. reflexivity. }
  rewrite Hex, toLowerCase_hash.
  destruct (toLowerCase_allHex r Ha) as (Ha' & Hl' & Hu').
  split; [reflexivity |]. simpl. rewrite Hl', Hl, Ha', Hu'. now split.
Qed.

Lemma expandOrLower_code (m : string) :
  isHexCode m -> hexTest 6 (expandOrLower m) = true.
Proof.
  intros [H3 | H6].
  - destruct (hexTest3_shape m H3) as (a & b & c & -> & Ha & Hb & Hc).
    rewrite expandOrLower_hex3. simpl. now rewrite Ha, Hb, Hc.
  - apply (expandOrLower_hex6 m H6).
Qed.

(** The fallback: what is left after stripping is hex digits only, and so
    is every group of six. *)
Lemma stripNonHex_allHex (raw : string) : allHex (stripNonHex raw) = true.
Proof.
  induction raw as [|c r IH]; simpl; [reflexivity |].
  destruct (isHexDigit c) eqn:Hc; simpl; [now rewrite Hc |]; exact IH.
Qed.

Lemma chunks6_allHex (n : nat) :
  forall s,
    String.length s <= n -> allHex s = true ->
    Forall (fun h => String.length h = 6 /\ allHex h = true) (chunks6 s).
Proof.
  induction n as [|n IH]; intros s Hn Hs.
  - destruct s; [constructor | simpl in Hn; lia].
  - destruct s as [|a [|b [|c [|d [|e [|f r]]]]]]; try constructor.
    + simpl in Hs. repeat (apply andb_true_iff in Hs as [? Hs]).
      split; [reflexivity |]. simpl.
      repeat match goal with H : isHexDigit _ = true |- _ =>
        rewrite H; clear H end.
      reflexivity.
    + apply IH.
      * simpl in Hn. lia.
      * simpl in Hs. repeat (apply andb_true_iff in Hs as [? Hs]). exact Hs.
Qed.

(** Every colour code bulk apply extracts is a [#] and six hex digits. *)
Lemma bulkHexes_hex6 (raw : string) :
  Forall (fun h => hexTest 6 h = true) (bulkHexes raw).
Proof.
  unfold bulkHexes.
  destruct (length (map expandOrLower (matchHexCodes raw)) =? 0)%nat.
  - apply Forall_map.
    eapply Forall_impl;
      [apply (chunks6_allHex _ _ (le_n _)), stripNonHex_allHex |].
    intros h [Hl Ha]. cbv beta.
    destruct (toLowerCase_allHex h Ha) as (Ha' & Hl' & _).
    simpl. now rewrite Hl', Hl, Ha'.
  - apply Forall_map.
    eapply Forall_impl; [apply matchAllFrom_codes |].
    intros m Hm. exact (expandOrLower_code m Hm).
Qed.

(** When the regular expression finds nothing, every code comes from the
    fallback and is lowered. *)
Lemma bulkHexes_fallback_lower (raw : string) :
  matchHexCodes raw = [] -> Forall (fun h => Js.noUpper h = true) (bulkHexes raw).
Proof.
  intros Hnone. unfold bulkHexes. rewrite Hnone. simpl.
  apply Forall_map.
  eapply Forall_impl;
    [apply (chunks6_allHex _ _ (le_n _)), stripNonHex_allHex |].
  intros h [_ Ha]. cbv beta.
  destruct (toLowerCase_allHex h Ha) as (_ & _ & Hu).
  simpl. exact Hu.
Qed.

(** *** Reading back a serialized palette *)

Lemma toLowerCase_fixed (r : string) :
  allHex r = true -> Js.noUpper r = true -> Js.toLowerCase r = r.
Proof.
  induction r as [|c r IH]; intros Ha Hu; [reflexivity |].
  simpl in Ha, Hu.
  apply andb_true_iff in Ha as [Hc Ha]. apply andb_true_iff in Hu as [Hn Hu].
  rewrite (toLowerCase_hex_cons c r Hc), (IH Ha Hu).
  unfold Js.lowerAscii. apply negb_true_iff in Hn. now rewrite Hn.
Qed.

Lemma canonical_hex6 (v : string) : canonical v = true -> hexTest 6 v = true.
Proof. unfold canonical. intros H. now apply andb_true_iff in H as [H _]. Qed.

Lemma expandOrLower_canonical (v : string) :
  canonical v = true -> expandOrLower v = v.
Proof.
  intros Hv. pose proof (canonical_hex6 v Hv) as H6.
  destruct (expandOrLower_hex6 v H6) as (-> & _).
  destruct (hexTest6_shape v H6) as (r & -> & _ & Ha).
  unfold canonical in Hv. apply andb_true_iff in Hv as [_ Hu].
  rewrite toLowerCase_hash. simpl in Hu. now rewrite (toLowerCase_fixed r Ha Hu).
Qed.

(** The scan passes over the rest of a match without looking at it. *)
Lemma matchAllFrom_skip (d rest : string) :
  matchAllFrom (String.length d) (d +:+ rest) = matchAllFrom 0 rest.
Proof.
  induction d as [|c d IH]; [reflexivity |].
  simpl String.length.
  change (String c d +:+ rest) with (String c (d +:+ rest)).
  now rewrite matchAllFrom_cons.
Qed.

(** A six-digit code followed by a word boundary is matched whole. *)
Lemma matchHexAt_hex6 (v rest : string) :
  hexTest 6 v = true -> wordBoundary rest = true ->
  matchHexAt (v +:+ rest) = Some v.
Proof.
  intros H6 Hb. destruct (hexTest6_shape v H6) as (r & -> & Hl & Ha).
  destruct r as [|a [|b [|c [|d [|e [|f [|x r]]]]]]]; try discriminate Hl.
  simpl in Ha. repeat (apply andb_true_iff in Ha as [? Ha]).
  lazy beta iota zeta delta [String.append matchHexAt takeHex].
  repeat match goal with H : isHexDigit _ = true |- _ =>
    rewrite H; clear H end.
  now rewrite Hb.
Qed.

Lemma matchAllFrom_hex6 (v rest : string) :
  hexTest 6 v = true -> wordBoundary rest = true ->
  matchAllFrom 0 (v +:+ rest) = v :: matchAllFrom 0 rest.
Proof.
  intros H6 Hb. pose proof (matchHexAt_hex6 v rest H6 Hb) as Hm.
  destruct (hexTest6_shape v H6) as (r & -> & Hl & _).
  change (String "#" r +:+ rest) with (String "#" (r +:+ rest)) in *.
  rewrite matchAllFrom_cons, Hm. f_equal.
  replace (String.length (String "#" r) - 1) with (String.length r)
    by (simpl; lia).
  apply matchAllFrom_skip.
Qed.

Lemma append_empty_r (x : string) : x +:+ "" = x.
Proof.
  induction x as [|c x IH]; [reflexivity |].
  change (String c x +:+ "") with (String c (x +:+ "")). now rewrite IH.
Qed.

(** The regular expression reads a list of six-digit codes joined by single
    spaces back as that list. *)
Lemma matchHexCodes_join (l : list string) :
  Forall (fun v => hexTest 6 v = true) l ->
  matchHexCodes (Js.join " " l) = l.
Proof.
  unfold matchHexCodes.
  induction l as [|x rest IH]; intros Hall; [reflexivity |].
  apply Forall_cons in Hall as [Hx Hrest].
  destruct rest as [|y rest].
  - simpl Js.join.
    rewrite <- (append_empty_r x) at 1.
    rewrite (matchAllFrom_hex6 x "" Hx eq_refl). reflexivity.
  - change (Js.join " " (x :: y :: rest))
      with (x +:+ String " " (Js.join " " (y :: rest))).
    rewrite (matchAllFrom_hex6 x (String " " (Js.join " " (y :: rest)))
               Hx eq_refl).
    rewrite matchAllFrom_cons.
    change (matchHexAt (String " " (Js.join " " (y :: rest)))) with (@None string).
    now rewrite (IH Hrest).
Qed.

End PaletteFacts.

Section PaletteClaims.

Import Palette.

(** C4.  The text [copyPalette] writes for the built-in default palette
    (the 26 values in the fixed key order, joined by single spaces) is read
    back by bulk apply as exactly those 26 values, and applying it to the
    default palette gives the default palette again, as an object and key by
    key. *)
Theorem default_palette_round_trip :
  let text := copyPalette DEFAULT_COLORS in
  bulkHexes text = map (fun k => get k DEFAULT_COLORS) COLOR_KEYS_IN_ORDER
  /\ applyBulkString text DEFAULT_COLORS = DEFAULT_COLORS
  /\ forall k,
       get k (applyBulkString text DEFAULT_COLORS) = get k DEFAULT_COLORS.
Proof.
  cbv zeta.
  assert (Hsame :
    applyBulkString (copyPalette DEFAULT_COLORS) DEFAULT_COLORS
    = DEFAULT_COLORS) by (vm_compute; reflexivity).
  split; [vm_compute; reflexivity |].
  split; [exact Hsame |].
  intros k. now rewrite Hsame.
Qed.

(** C6, amended.  Typing [v] into the hex field of the key [colorKey]:
    when [v] is a [#] followed by exactly three or exactly six hex digits,
    the palette then holds [v] itself at [colorKey] (as typed: no case
    folding, no expansion to six digits) and every other key keeps its
    value; when [v] is anything else the palette is unchanged. *)
Theorem hex_edit_stores_verbatim (colorKey : ColorKey.t) (v text : string)
    (c : Colors) :
  let after := snd (handleHexChange colorKey v (text, c)) in
  ((hexTest 3 v || hexTest 6 v)%bool = true ->
     get colorKey after = v
     /\ forall k, k <> colorKey -> get k after = get k c)
  /\ ((hexTest 3 v || hexTest 6 v)%bool = false -> after = c).
Proof.
  cbv zeta. unfold handleHexChange, updateColor.
  destruct (hexTest 3 v || hexTest 6 v)%bool; simpl; split.
  - intros _. split; [apply get_set_eq |].
    intros k Hk. now apply get_set_ne.
  - discriminate.
  - discriminate.
  - reflexivity.
Qed.

(** C6 on inputs: an accepted code is stored as typed, a rejected text
    changes nothing. *)
Lemma hex_edit_stores_verbatim_witness :
  get ColorKey.park
    (snd (handleHexChange ColorKey.park "#AbC" ("", DEFAULT_COLORS)))
  = "#AbC"
  /\ snd (handleHexChange ColorKey.park "#AbCd" ("", DEFAULT_COLORS))
     = DEFAULT_COLORS.
Proof.
  split.
  - apply (hex_edit_stores_verbatim ColorKey.park "#AbC" "" DEFAULT_COLORS).
    reflexivity.
  - apply (hex_edit_stores_verbatim ColorKey.park "#AbCd" "" DEFAULT_COLORS).
    reflexivity.
Defined.

(** C6 as stated fails.  The only normal form the program has for a colour
    code is the one bulk apply computes ([expandOrLower]: three digits
    doubled to six, six digits lowered); the text field applies neither
    that nor plain lowering, so an accepted code with capitals or with
    three digits is not stored in normal form. *)
Lemma hex_edit_not_normalized :
  ~ (forall (colorKey : ColorKey.t) (v text : string) (c : Colors),
       (hexTest 3 v || hexTest 6 v)%bool = true ->
       get colorKey (snd (handleHexChange colorKey v (text, c)))
       = expandOrLower v)
  /\ ~ (forall (colorKey : ColorKey.t) (v text : string) (c : Colors),
       (hexTest 3 v || hexTest 6 v)%bool = true ->
       get colorKey (snd (handleHexChange colorKey v (text, c)))
       = Js.toLowerCase v).
Proof.
  split; intros H.
  - specialize (H ColorKey.park "#abc" "" DEFAULT_COLORS eq_refl).
    vm_compute in H. discriminate H.
  - specialize (H ColorKey.park "#ABCDEF" "" DEFAULT_COLORS eq_refl).
    vm_compute in H. discriminate H.
Qed.

(** C7.  Let bulk apply extract the codes [hexes] from [raw], [n] of them.
    With [n = 0] the palette is unchanged.  Otherwise the key at position
    [j] of the fixed order holds the code of position [j] when
    [j < min n 26], and keeps its previous value when [j >= min n 26]. *)
Theorem bulk_apply_assigns_in_key_order (raw : string) (prev : Colors) :
  let hexes := bulkHexes raw in
  let n := length hexes in
  let after := applyBulkString raw prev in
  (n = 0 -> after = prev)
  /\ forall j k,
       nth_error COLOR_KEYS_IN_ORDER j = Some k ->
       (j < Nat.min n (length COLOR_KEYS_IN_ORDER) ->
          nth_error hexes j = Some (get k after))
       /\ (Nat.min n (length COLOR_KEYS_IN_ORDER) <= j ->
          get k after = get k prev).
Proof.
  cbv zeta. split.
  - intros Hn. unfold applyBulkString. now rewrite Hn.
  - intros j k Hj.
    assert (Hlt : j < length COLOR_KEYS_IN_ORDER)
      by (apply nth_error_Some; congruence).
    rewrite (applyBulkString_get raw prev j k Hj).
    split; intros Hrange.
    + destruct (nth_error (bulkHexes raw) j) as [hex|] eqn:Hhex;
        [reflexivity |].
      apply nth_error_None in Hhex. lia.
    + assert (Hnone : nth_error (bulkHexes raw) j = None)
        by (apply nth_error_None; lia).
      now rewrite Hnone.
Qed.

(** C7 on an input with two codes: the second key receives the second
    code, the fourth key keeps its value. *)
Lemma bulk_apply_assigns_in_key_order_witness :
  nth_error (bulkHexes "#fff, #12AB56") 1
  = Some (get ColorKey.water (applyBulkString "#fff, #12AB56" DEFAULT_COLORS))
  /\ get ColorKey.park (applyBulkString "#fff, #12AB56" DEFAULT_COLORS)
     = get ColorKey.park DEFAULT_COLORS.
Proof.
  pose proof
    (bulk_apply_assigns_in_key_order "#fff, #12AB56" DEFAULT_COLORS) as H.
  cbv zeta in H. destruct H as [_ H]. split.
  - apply (H 1 ColorKey.water eq_refl). vm_compute. lia.
  - apply (H 3 ColorKey.park eq_refl). vm_compute. lia.
Defined.

(** C10.  Every code bulk apply extracts, hence every value it writes, is a
    [#] followed by exactly six hex digits.  A match of the regular
    expression is either a six-digit code, stored lowered, or a three-digit
    code [#abc], stored as [#aabbcc] with the case of its digits kept; the
    codes of the fallback are lowered.  So [#FFF] is stored as [#FFFFFF],
    which has capitals. *)
Theorem bulk_apply_values_six_digits_case_mixed :
  (forall raw, Forall (fun h => hexTest 6 h = true) (bulkHexes raw))
  /\ (forall raw prev k,
        get k (applyBulkString raw prev) = get k prev
        \/ hexTest 6 (get k (applyBulkString raw prev)) = true)
  /\ (forall raw,
        Forall
          (fun m =>
             hexTest 6 m = true
             /\ expandOrLower m = Js.toLowerCase m
             /\ Js.noUpper (expandOrLower m) = true
             \/ exists a b c,
                  m = String "#" (String a (String b (String c "")))
                  /\ expandOrLower m =
                     String "#" (String a (String a (String b (String b
                       (String c (String c "")))))))
          (matchHexCodes raw))
  /\ (forall raw,
        matchHexCodes raw = [] ->
        Forall (fun h => Js.noUpper h = true) (bulkHexes raw))
  /\ bulkHexes "#FFF" = ["#FFFFFF"]
  /\ get ColorKey.bg (applyBulkString "#FFF" DEFAULT_COLORS) = "#FFFFFF"
  /\ Js.noUpper "#FFFFFF" = false.
Proof.
  split; [exact bulkHexes_hex6 |].
  split.
  { intros raw prev k. destruct (keys_complete k) as [j Hj].
    rewrite (applyBulkString_get raw prev j k Hj).
    destruct (nth_error (bulkHexes raw) j) as [hex|] eqn:Hhex;
      [right | now left].
    pose proof (bulkHexes_hex6 raw) as Hall.
    rewrite List.Forall_forall in Hall.
    apply Hall. eapply nth_error_In. exact Hhex. }
  split.
  { intros raw. eapply Forall_impl; [apply matchAllFrom_codes |].
    intros m [H3 | H6]; cbv beta.
    - right. destruct (hexTest3_shape m H3) as (a & b & c & -> & _).
      exists a, b, c. split; [reflexivity | apply expandOrLower_hex3].
    - left. destruct (expandOrLower_hex6 m H6) as (He & _ & Hu).
      now repeat split. }
  split; [exact bulkHexes_fallback_lower |].
  repeat split; reflexivity.
Qed.

(** The round-trip law in general.  For a palette whose 26 values are all
    a [#] and six hex digits without capitals, bulk apply of the text
    [copyPalette] writes gives that palette, whatever palette it is applied
    to. *)
Theorem canonical_palette_round_trip (c prev : Colors) :
  (forall k, canonical (get k c) = true) ->
  applyBulkString (copyPalette c) prev = c.
Proof.
  intros Hcan.
  assert (Hhexes :
    bulkHexes (copyPalette c) = map (fun k => get k c) COLOR_KEYS_IN_ORDER).
  { unfold bulkHexes, copyPalette.
    rewrite matchHexCodes_join.
    - assert (Hfix :
        map expandOrLower (map (fun k => get k c) COLOR_KEYS_IN_ORDER)
        = map (fun k => get k c) COLOR_KEYS_IN_ORDER).
      { rewrite List.map_map. apply List.map_ext.
        intros k. apply expandOrLower_canonical, Hcan. }
      rewrite Hfix. reflexivity.
    - apply Forall_map, Forall_forall. intros k _.
      apply canonical_hex6, Hcan. }
  apply colors_ext. intros k.
  destruct (keys_complete k) as [j Hj].
  rewrite (applyBulkString_get _ prev j k Hj), Hhexes.
  now rewrite (List.map_nth_error _ _ _ Hj).
Qed.

(** The law on the default palette, applied to a palette that differs
    from it. *)
Lemma canonical_palette_round_trip_witness :
  applyBulkString (copyPalette DEFAULT_COLORS) shortWhite = DEFAULT_COLORS.
Proof.
  apply (canonical_palette_round_trip DEFAULT_COLORS shortWhite).
  intros k. destruct k; reflexivity.
Defined.

(** Outside that form the law fails: a palette holding the accepted
    three-digit edit [#FFF] is read back with [#FFFFFF] in its place. *)
Example short_code_does_not_round_trip :
  applyBulkString (copyPalette shortWhite) shortWhite <> shortWhite
  /\ get ColorKey.bg (applyBulkString (copyPalette shortWhite) shortWhite)
     = "#FFFFFF".
Proof.
  split; [| reflexivity].
  intros H. apply (f_equal (get ColorKey.bg)) in H.
  vm_compute in H. discriminate H.
Qed.

End PaletteClaims.

(** ** Style theming engine *)

Section ThemeClaims.

Import Theme.

(** Recolouring touches the paint block only. *)
Lemma themeLayer_type (C : Palette.Colors) (layer : Layer) :
  layer_type (themeLayer C layer) = layer_type layer.
Proof.
  unfold themeLayer. cbv zeta.
  repeat match goal with
         | |- context [if ?b then _ else _] => destruct b
         end; reflexivity.
Qed.

Lemma themeLayer_has_paint (C : Palette.Colors) (layer : Layer) :
  exists q, paint (themeLayer C layer) = Some q.
Proof.
  unfold themeLayer. cbv zeta.
  repeat match goal with
         | |- context [if ?b then _ else _] => destruct b
         end; eexists; reflexivity.
Qed.

(** C5.  Whatever the document and the palette, no layer of the themed
    document has the type "symbol". *)
Theorem themed_document_has_no_symbol_layer (raw : StyleDoc)
    (C : Palette.Colors) :
  Forall (fun l => layer_type l <> "symbol") (layers (applyAppleStyle raw C)).
Proof.
  unfold applyAppleStyle. simpl layers.
  apply List.Forall_forall. intros l Hin.
  apply List.in_map_iff in Hin as (l0 & <- & Hin0).
  apply List.filter_In in Hin0 as [_ Hkeep].
  rewrite themeLayer_type. intros Heq. rewrite Heq in Hkeep. discriminate.
Qed.

(** C1, amended.  The branches that replace the paint block are
    background, water fill and building fill: their output paint holds the
    palette colour (and for the two fills the opacity 1) and nothing of the
    raw paint.  A layer reaches the building or the aeroway branch when no
    earlier branch takes it, that is when its lowered id does not start
    with "park".  The aeroway fill branch is additive: it keeps every raw
    paint property and sets the fill colour over them. *)
Theorem replacing_branches_own_their_paint (C : Palette.Colors)
    (layer : Layer) :
  let id := Js.toLowerCase (default "" (layer_id layer)) in
  let src := Js.toLowerCase (default "" (source_layer layer)) in
  let t := layer_type layer in
  let out := paint (themeLayer C layer) in
  (t = "background" ->
     out = Some (<["background-color" := JStr (Palette.bg C)]> ∅))
  /\ (t = "fill" -> src = "water" ->
     out = Some (<["fill-opacity" := JNum 1%float]>
                   (<["fill-color" := JStr (Palette.water C)]> ∅)))
  /\ (t = "fill" -> src = "building" -> Js.startsWith "park" id = false ->
     out = Some (<["fill-opacity" := JNum 1%float]>
                   (<["fill-color" := JStr (Palette.building C)]> ∅)))
  /\ (t = "fill" -> src = "aeroway" -> Js.startsWith "park" id = false ->
     out = Some (<["fill-color" := JStr (Palette.aeroway C)]>
                   (default ∅ (paint layer)))).
Proof.
  cbv zeta. unfold themeLayer. cbv zeta.
  repeat split.
  - intros ->. reflexivity.
  - intros -> ->. reflexivity.
  - intros -> -> ->. reflexivity.
  - intros -> -> ->. reflexivity.
Qed.

(** C1 on inputs: a water fill loses its raw paint, the runway keeps it. *)
Lemma replacing_branches_own_their_paint_witness :
  paint (themeLayer Palette.DEFAULT_COLORS lake)
  = Some (<["fill-opacity" := JNum 1%float]>
            (<["fill-color" := JStr "#7ec8e3"]> ∅))
  /\ paint (themeLayer Palette.DEFAULT_COLORS runway)
     = Some (<["fill-color" := JStr "#dcd8cc"]>
               (<["fill-opacity" := JNum 0.5%float]> ∅)).
Proof.
  split.
  - apply (replacing_branches_own_their_paint Palette.DEFAULT_COLORS lake);
      reflexivity.
  - apply (replacing_branches_own_their_paint Palette.DEFAULT_COLORS runway);
      reflexivity.
Defined.

(** C1 as stated fails on the aeroway branch: the themed runway still has
    the opacity of the raw layer, so its paint is not the theme's colour
    alone. *)
Lemma aeroway_keeps_raw_paint :
  (exists q,
     paint (themeLayer Palette.DEFAULT_COLORS runway) = Some q
     /\ q !! "fill-opacity" = Some (JNum 0.5%float)
     /\ q !! "fill-color" = Some (JStr "#dcd8cc"))
  /\ paint (themeLayer Palette.DEFAULT_COLORS runway)
     <> Some (<["fill-color" := JStr "#dcd8cc"]> ∅).
Proof.
  split.
  - eexists. split; [reflexivity |]. split; reflexivity.
  - intros H.
    apply (f_equal (fun o : option (gmap string json) =>
                      o ≫= (fun q => q !! "fill-opacity"))) in H.
    vm_compute in H. discriminate H.
Qed.

End ThemeClaims.

(** ** Geocode search *)

Section SearchClaims.

Import Search.

Lemma last_cons (l : list string) :
  forall x d, List.last (x :: l) d = List.last l x.
Proof.
  induction l as [|y l IH]; intros x d; [reflexivity |].
  change (List.last (x :: y :: l) d) with (List.last (y :: l) d).
  now rewrite !IH.
Qed.

Lemma finalQuery_cons (current : string) (ch : nat * string)
    (rest : list (nat * string)) :
  finalQuery current (ch :: rest) = finalQuery (snd ch) rest.
Proof. unfold finalQuery. simpl map. apply last_cons. Qed.

Lemma setQuery_changed (q : string) (st : State) :
  q <> query st ->
  armed (setQuery q st)
  /\ query (setQuery q st) = q
  /\ fetches (setQuery q st) = fetches st.
Proof.
  intros Hne. unfold setQuery, armed.
  destruct (q =? query st)%string eqn:Heq;
    [apply String.eqb_eq in Heq; contradiction |].
  unfold effect, cleanup. simpl.
  destruct (Js.trim q =? "")%string eqn:Hblank; simpl; rewrite Hblank;
    repeat split.
Qed.

Lemma elapse_idle (dt : nat) (st : State) :
  timer st = None ->
  timer (elapse dt st) = None
  /\ query (elapse dt st) = query st
  /\ fetches (elapse dt st) = fetches st.
Proof. intros Hnone. unfold elapse. rewrite Hnone. repeat split. Qed.

(** Less than the delay after the timer was set, nothing fires. *)
Lemma elapse_early (gap : nat) (st : State) :
  armed st -> gap < DELAY ->
  query (elapse gap st) = query st
  /\ fetches (elapse gap st) = fetches st.
Proof.
  unfold armed, elapse. intros Harmed Hgap.
  destruct (timer st) as [[due q]|]; [| repeat split].
  destruct (Js.trim (query st) =? "")%string; [discriminate |].
  injection Harmed as -> ->. simpl.
  destruct (clock st + DELAY <=? clock st + gap)%nat eqn:Hdue;
    [apply Nat.leb_le in Hdue; lia | repeat split].
Qed.

(** Once the delay has passed, the pending timer has fired, once. *)
Lemma elapse_due (wait : nat) (st : State) :
  armed st -> DELAY <= wait ->
  fetches (elapse wait st) =
    if (Js.trim (query st) =? "")%string then fetches st
    else (fetches st ++ [query st])%list.
Proof.
  unfold armed, elapse. intros Harmed Hwait.
  destruct (Js.trim (query st) =? "")%string; rewrite Harmed;
    [reflexivity |].
  simpl.
  destruct (clock st + DELAY <=? clock st + wait)%nat eqn:Hdue;
    [reflexivity | apply Nat.leb_gt in Hdue; lia].
Qed.

(** A burst in which every change comes before the delay of the one before
    it has passed sends nothing, and leaves the timer of the last text. *)
Lemma typing_quiet (changes : list (nat * string)) :
  forall st,
    armed st ->
    changing (query st) changes ->
    Forall (fun ch => fst ch < DELAY) changes ->
    armed (typing changes st)
    /\ query (typing changes st) = finalQuery (query st) changes
    /\ fetches (typing changes st) = fetches st.
Proof.
  induction changes as [|[gap q] rest IH]; intros st Harmed Hch Hgaps.
  - repeat split. exact Harmed.
  - destruct Hch as [Hne Hch]. simpl in Hne, Hch.
    apply Forall_cons in Hgaps as [Hgap Hgaps]. simpl in Hgap.
    destruct (elapse_early gap st Harmed Hgap) as [Hq Hf].
    assert (Hne' : q <> query (elapse gap st)) by (now rewrite Hq).
    destruct (setQuery_changed q _ Hne') as (Ha1 & Hq1 & Hf1).
    change (typing ((gap, q) :: rest) st)
      with (typing rest (setQuery q (elapse gap st))).
    destruct (IH _ Ha1) as (Ha2 & Hq2 & Hf2);
      [now rewrite Hq1 | exact Hgaps |].
    split; [exact Ha2 |]. split.
    + now rewrite Hq2, Hq1, finalQuery_cons.
    + now rewrite Hf2, Hf1, Hf.
Qed.

(** C8, amended.  Start with no timer pending.  After a burst of changes
    of the query text, each after the first coming before the delay of the
    one before it has passed, and once the delay has passed after the
    last: when the final text is not blank, exactly one request has gone
    out, for the final text; when the final text is blank (empty after
    [trim]), none has. *)
Theorem debounce_fetches_final_text_unless_blank (st : State) (gap : nat)
    (q : string) (rest : list (nat * string)) (wait : nat) :
  timer st = None ->
  changing (query st) ((gap, q) :: rest) ->
  Forall (fun ch => fst ch < DELAY) rest ->
  DELAY <= wait ->
  let final := finalQuery (query st) ((gap, q) :: rest) in
  fetches (elapse wait (typing ((gap, q) :: rest) st)) =
    if (Js.trim final =? "")%string then fetches st
    else (fetches st ++ [final])%list.
Proof.
  intros Hidle [Hne Hch] Hgaps Hwait. simpl in Hne, Hch. cbv zeta.
  destruct (elapse_idle gap st Hidle) as (_ & Hq0 & Hf0).
  assert (Hne' : q <> query (elapse gap st)) by (now rewrite Hq0).
  destruct (setQuery_changed q _ Hne') as (Ha1 & Hq1 & Hf1).
  change (typing ((gap, q) :: rest) st)
    with (typing rest (setQuery q (elapse gap st))).
  destruct (typing_quiet rest _ Ha1) as (Ha2 & Hq2 & Hf2);
    [now rewrite Hq1 | exact Hgaps |].
  rewrite (elapse_due wait _ Ha2 Hwait), Hq2, Hf2, Hf1, Hf0, Hq1.
  now rewrite finalQuery_cons.
Qed.

(** C8 on a burst of three changes ending in "linz": one request, for
    "linz". *)
Lemma debounce_fetches_final_text_unless_blank_witness :
  fetches
    (elapse 420 (typing [(0, "l"); (150, "li"); (419, "linz")] mounted))
  = ["linz"].
Proof.
  apply (debounce_fetches_final_text_unless_blank mounted 0 "l"
           [(150, "li"); (419, "linz")] 420).
  - reflexivity.
  - simpl. repeat split; discriminate.
  - repeat constructor; unfold DELAY; simpl; lia.
  - unfold DELAY. lia.
Defined.

(** C8 as stated fails: typing "a" and deleting it again before the delay
    has passed ends in the empty text, and no request goes out at all. *)
Lemma debounce_blank_final_text_fetches_nothing :
  timer mounted = None
  /\ changing (query mounted) [(0, "a"); (100, "")]
  /\ Forall (fun ch => fst ch < DELAY) [(100, "")]
  /\ fetches (elapse 420 (typing [(0, "a"); (100, "")] mounted)) = []
  /\ fetches (elapse 420 (typing [(0, "a"); (100, "")] mounted))
     <> (fetches mounted
         ++ [finalQuery (query mounted) [(0, "a"); (100, "")]])%list.
Proof.
  split; [reflexivity |].
  split; [simpl; repeat split; discriminate |].
  split; [repeat constructor; unfold DELAY; simpl; lia |].
  split; [reflexivity | vm_compute; discriminate].
Qed.

End SearchClaims.

(** ** Camera *)

Section CameraClaims.

Import Camera.

(** C3, amended.  Whatever keys are held, one tick issues at most one pan
    command and at most two zoom commands: a zoom in when "+" or "=" is
    held and a zoom out when "-" is held.  Unless a zoom-in key and "-" are
    held together it issues at most one zoom command. *)
Theorem tick_issues_one_pan_and_up_to_two_zooms (map : option Surface)
    (keys : gset string) :
  let cmds := snd (tick map keys) in
  length (List.filter isPan cmds) <= 1
  /\ length (List.filter isZoom cmds) <= 2
  /\ (((has keys "+" || has keys "=") && has keys "-")%bool = false ->
      length (List.filter isZoom cmds) <= 1).
Proof.
  cbv zeta. unfold tick.
  destruct map as [m|]; [| simpl; repeat split; lia].
  destruct (0 <? size keys)%nat; [| simpl; repeat split; lia].
  destruct (has keys "ArrowUp"), (has keys "ArrowDown"),
    (has keys "ArrowLeft"), (has keys "ArrowRight"),
    (has keys "+"), (has keys "="), (has keys "-");
    simpl; repeat split; intros; try lia; discriminate.
Qed.

(** C3 on the keys "ArrowUp" and "=": one pan and one zoom. *)
Lemma tick_issues_one_pan_and_up_to_two_zooms_witness :
  length (List.filter isZoom
            (snd (tick (Some surface0) {[ "ArrowUp"; "=" ]}))) <= 1.
Proof.
  apply (tick_issues_one_pan_and_up_to_two_zooms
           (Some surface0) {[ "ArrowUp"; "=" ]}).
  vm_compute. reflexivity.
Defined.

(** C3 as stated fails: with "+" and "-" both held one tick issues two
    zoom commands, a zoom in and then a zoom out. *)
Lemma tick_with_plus_and_minus_zooms_twice :
  snd (tick (Some surface0) {[ "+"; "-" ]})
  = [ZoomTo (2.5 + ZOOM)%float; ZoomTo ((2.5 + ZOOM) - ZOOM)%float]
  /\ ~ length (List.filter isZoom
                 (snd (tick (Some surface0) {[ "+"; "-" ]}))) <= 1.
Proof.
  split; [vm_compute; reflexivity |].
  vm_compute. intros H. inversion H as [|n H1]. inversion H1.
Qed.

Lemma has_nonempty (keys : gset string) (k : string) :
  has keys k = true -> (0 <? size keys)%nat = true.
Proof.
  unfold has. intros Hk. apply bool_decide_eq_true in Hk.
  assert (Hsize : size keys <> 0)
    by (apply size_non_empty_iff; set_solver).
  apply Nat.ltb_lt. lia.
Qed.

(** Holding "ArrowUp" alone for [k] frames pans [k] times by the fixed
    delta upwards; holding "ArrowDown" with it pans not at all. *)
Theorem arrow_up_pans_each_frame (k : nat) (keys : gset string) (m : Surface) :
  has keys "ArrowUp" = true ->
  has keys "ArrowLeft" = false -> has keys "ArrowRight" = false ->
  has keys "+" = false -> has keys "=" = false -> has keys "-" = false ->
  hold k keys m =
    if has keys "ArrowDown" then (m, [])
    else ({| zoom := zoom m;
             offset := (fst (offset m), snd (offset m) - PAN * Z.of_nat k)%Z |},
          repeat (PanBy 0 (- PAN)) k).
Proof.
  intros Hup Hleft Hright Hplus Heq Hminus.
  pose proof (has_nonempty keys _ Hup) as Hsize.
  revert m. induction k as [|k IH]; intros m.
  - destruct (has keys "ArrowDown"); [reflexivity |].
    destruct m as [z [x y]]. simpl.
    replace (y - PAN * Z.of_nat 0)%Z with y by lia. reflexivity.
  - simpl hold. unfold tick.
    rewrite Hsize, Hup, Hleft, Hright, Hplus, Heq, Hminus.
    destruct (has keys "ArrowDown") eqn:Hdown; simpl.
    + rewrite IH. reflexivity.
    + rewrite IH. destruct m as [z [x y]]. simpl.
      replace (x + 0)%Z with x by lia.
      replace (y + (0 - PAN) - PAN * Z.of_nat k)%Z
        with (y - PAN * Z.of_nat (S k))%Z by (unfold PAN; lia).
      reflexivity.
Qed.

Lemma arrow_up_pans_each_frame_witness :
  hold 3 {[ "ArrowUp" ]} surface0
  = ({| zoom := 2.5%float; offset := (0, -15)%Z |},
     [PanBy 0 (-5); PanBy 0 (-5); PanBy 0 (-5)])
  /\ hold 3 {[ "ArrowUp"; "ArrowDown" ]} surface0 = (surface0, []).
Proof.
  split.
  - etransitivity.
    + apply (arrow_up_pans_each_frame 3 {[ "ArrowUp" ]} surface0);
        vm_compute; reflexivity.
    + vm_compute. reflexivity.
  - etransitivity.
    + apply (arrow_up_pans_each_frame 3 {[ "ArrowUp"; "ArrowDown" ]}
               surface0); vm_compute; reflexivity.
    + vm_compute. reflexivity.
Defined.

(** A selection that was cleared stays cleared through every later move
    and end of move. *)
Lemma run_keeps_cleared (events : list Event) :
  forall st,
    selectedName st = None -> searchedCoords st = None ->
    selectedName (run events st) = None
    /\ searchedCoords (run events st) = None.
Proof.
  induction events as [|e rest IH]; intros st Hname Hcoords.
  - now split.
  - change (run (e :: rest) st) with (run rest (step st e)).
    assert (Hstep :
      selectedName (step st e) = None /\ searchedCoords (step st e) = None).
    { destruct e as [v map|]; simpl; [| now split].
      unfold handleMove. simpl. rewrite Hcoords.
      destruct (flying st); simpl; now split. }
    now apply IH.
Qed.

(** C9.  A move event outside a fly-to, with a selection whose coordinate
    the viewport does not contain, clears the name and the coordinate; and
    after any later moves and ends of moves, whatever their viewports
    contain, both are still cleared. *)
Theorem selection_out_of_view_is_cleared_for_good (st : State)
    (v : ViewState) (contains : Viewport) (coords : float * float)
    (later : list Event) :
  flying st = false ->
  searchedCoords st = Some coords ->
  contains coords = false ->
  let st' := handleMove v (Some contains) st in
  selectedName st' = None
  /\ searchedCoords st' = None
  /\ selectedName (run later st') = None
  /\ searchedCoords (run later st') = None.
Proof.
  intros Hfly Hsel Hout. cbv zeta.
  assert (Hcleared :
    selectedName (handleMove v (Some contains) st) = None
    /\ searchedCoords (handleMove v (Some contains) st) = None).
  { unfold handleMove. simpl. rewrite Hfly, Hsel, Hout. now split. }
  destruct Hcleared as [Hname Hcoords].
  split; [exact Hname |]. split; [exact Hcoords |].
  now apply run_keeps_cleared.
Qed.

(** C9 on inputs: Linz is selected, the camera moves to a box around
    Vienna and then back to a box around Linz; the selection is gone after
    the first move and is not back after the second. *)
Lemma selection_out_of_view_is_cleared_for_good_witness :
  let vienna := {| longitude := 16.37; latitude := 48.21; view_zoom := 12 |} in
  let linz := {| longitude := 14.29; latitude := 48.31; view_zoom := 12 |} in
  let st' := handleMove vienna (Some (box 16 48 17 49)) linzSelected in
  selectedName st' = None
  /\ searchedCoords st' = None
  /\ selectedName (run [Move linz (Some (box 14 48 15 49)); MoveEnd] st')
     = None
  /\ searchedCoords (run [Move linz (Some (box 14 48 15 49)); MoveEnd] st')
     = None.
Proof.
  cbv zeta.
  apply (selection_out_of_view_is_cleared_for_good linzSelected
           {| longitude := 16.37; latitude := 48.21; view_zoom := 12 |}
           (box 16 48 17 49) (14.29%float, 48.31%float)).
  - reflexivity.
  - reflexivity.
  - vm_compute. reflexivity.
Defined.

End CameraClaims.

(** ** Capture pipeline *)

Section CaptureClaims.

Import Capture.

(** C2, on the code.  When the encoder hands the callback no blob, nothing
    is downloaded, and the callback returns before [setIsCapturing(false)]:
    the flag that [capture] raised is still raised, as it is after any
    number of further empty callbacks.  With a blob the flag is dropped and
    one download is triggered. *)
Theorem empty_blob_leaves_capturing_raised (st : State) (now : Z) :
  let started := fst (capture true st) in
  let drawn := fst (onFrame started) in
  isCapturing started = true
  /\ onBlob None now drawn = (started, [])
  /\ isCapturing (fst (onBlob None now drawn)) = true
  /\ List.filter isDownload (snd (onBlob None now drawn)) = []
  /\ (forall blob,
        isCapturing (fst (onBlob (Some blob) now drawn)) = false
        /\ length (List.filter isDownload (snd (onBlob (Some blob) now drawn)))
           = 1).
Proof. cbv zeta. repeat split. Qed.

End CaptureClaims.

(** * Further properties *)

(** ** Style theming engine *)

Section ThemeMore.

Import Theme ThemeKeys.

Ltac branches :=
  repeat match goal with
         | |- context [if ?b then _ else _] => destruct b eqn:?
         end.

(** Recolouring leaves the id, the source layer and the other properties
    of a layer alone. *)
Lemma themeLayer_fields (C : Palette.Colors) (layer : Layer) :
  layer_id (themeLayer C layer) = layer_id layer
  /\ source_layer (themeLayer C layer) = source_layer layer
  /\ layer_rest (themeLayer C layer) = layer_rest layer.
Proof. unfold themeLayer. cbv zeta. branches; repeat split. Qed.

(** The themed document lists the layers of the raw document that are not
    symbol layers, in their order, each with its id, source layer, type and
    other properties unchanged and with a paint block; everything of the
    document besides its layers is copied. *)
Theorem themed_layers_keep_identity_and_order (raw : StyleDoc)
    (C : Palette.Colors) :
  Forall2
    (fun l out =>
       layer_id out = layer_id l
       /\ source_layer out = source_layer l
       /\ layer_type out = layer_type l
       /\ layer_rest out = layer_rest l
       /\ is_Some (paint out))
    (List.filter (fun l => negb (layer_type l =? "symbol")%string)
       (layers raw))
    (layers (applyAppleStyle raw C))
  /\ doc_rest (applyAppleStyle raw C) = doc_rest raw.
Proof.
  split; [| reflexivity].
  unfold applyAppleStyle. simpl layers.
  induction (List.filter (fun l => negb (layer_type l =? "symbol")%string)
               (layers raw)) as [|l rest IH]; simpl; constructor.
  - destruct (themeLayer_fields C l) as (Hid & Hsrc & Hrest).
    destruct (themeLayer_has_paint C l) as [q Hq].
    rewrite themeLayer_type, Hq. repeat split; eauto.
  - exact IH.
Qed.

(** Outside the replacing branches the engine is additive: a paint
    property of the raw layer that is not one of the seven properties the
    engine writes is in the output with its raw value, and no such
    property appears that the raw layer did not have. *)
Theorem additive_branches_keep_raw_paint (C : Palette.Colors) (layer : Layer)
    (key : string) :
  replaced layer = false ->
  ~ In key themeKeys ->
  paint (themeLayer C layer) ≫= (fun q => q !! key)
  = default ∅ (paint layer) !! key.
Proof.
  intros Hrep Hkey.
  assert (H1 : "background-color" <> key) by (intros <-; apply Hkey; simpl; tauto).
  assert (H2 : "fill-color" <> key) by (intros <-; apply Hkey; simpl; tauto).
  assert (H3 : "fill-opacity" <> key) by (intros <-; apply Hkey; simpl; tauto).
  assert (H4 : "line-color" <> key) by (intros <-; apply Hkey; simpl; tauto).
  assert (H5 : "line-opacity" <> key) by (intros <-; apply Hkey; simpl; tauto).
  clear Hkey.
  revert Hrep. unfold replaced, themeLayer. cbv zeta.
  generalize (Js.toLowerCase (default "" (source_layer layer))) as src.
  generalize (Js.toLowerCase (default "" (layer_id layer))) as id.
  generalize (default ∅ (paint layer)) as p.
  generalize (layer_type layer) as t.
  intros t p id src.
  destruct (t =? "background")%string; [discriminate |].
  destruct (src =? "water")%string, (t =? "fill")%string;
    try discriminate;
    destruct (src =? "building")%string,
      (Js.startsWith "park" id), (t =? "fill-extrusion")%string;
    try discriminate; intros _;
    rewrite ?orb_true_r, ?orb_false_r, ?andb_true_r, ?andb_false_r;
    cbn [andb orb negb].
  all: branches; simpl; rewrite ?lookup_insert_ne by assumption; reflexivity.
Qed.


Lemma additive_branches_keep_raw_paint_witness :
  paint (themeLayer Palette.DEFAULT_COLORS road)
    ≫= (fun q => q !! "line-width")
  = Some (JNum 2%float).
Proof.
  etransitivity.
  - apply (additive_branches_keep_raw_paint Palette.DEFAULT_COLORS road
             "line-width").
    + reflexivity.
    + unfold themeKeys. simpl. intros H.
      repeat (destruct H as [H | H]; [discriminate H |]). exact H.
  - reflexivity.
Defined.

Lemma withPaint_again (l : Layer) (p q : gmap string json) :
  withPaint (withPaint l p) q = withPaint l q.
Proof. reflexivity. Qed.

Lemma recolor (k : string) (a b : json) (p : gmap string json) :
  <[k := b]> (<[k := a]> p) = <[k := b]> p.
Proof. apply insert_insert_eq. Qed.

Lemma recolor_under (k o : string) (a b x : json) (p : gmap string json) :
  k <> o ->
  <[o := x]> (<[k := b]> (<[o := x]> (<[k := a]> p)))
  = <[o := x]> (<[k := b]> p).
Proof.
  intros Hne. apply map_eq. intros i.
  rewrite !lookup_insert. repeat case_decide; congruence.
Qed.

Lemma themeLayer_retheme (C1 C2 : Palette.Colors) (layer : Layer) :
  themeLayer C2 (themeLayer C1 layer) = themeLayer C2 layer.
Proof.
  unfold themeLayer at 1 3. cbv zeta.
  destruct (themeLayer_fields C1 layer) as (-> & -> & _).
  rewrite themeLayer_type.
  unfold themeLayer. cbv zeta.
  generalize (Js.toLowerCase (default "" (source_layer layer))) as src.
  generalize (Js.toLowerCase (default "" (layer_id layer))) as id.
  generalize (default ∅ (paint layer)) as p.
  generalize (layer_type layer) as t.
  intros t p id src.
  branches; rewrite ?withPaint_again; simpl default;
    rewrite ?recolor_under by discriminate; rewrite ?recolor; reflexivity.
Qed.

Lemma filter_themed (C : Palette.Colors) (l : list Layer) :
  List.filter (fun l => negb (layer_type l =? "symbol")%string)
    (map (themeLayer C)
       (List.filter (fun l => negb (layer_type l =? "symbol")%string) l))
  = map (themeLayer C)
      (List.filter (fun l => negb (layer_type l =? "symbol")%string) l).
Proof.
  induction l as [|x l IH]; [reflexivity |].
  simpl. destruct (negb (layer_type x =? "symbol")%string) eqn:Hx;
    [| exact IH].
  simpl. rewrite themeLayer_type, Hx, IH. reflexivity.
Qed.

(** Theming carries no history: theming an already themed document with
    another palette gives the document the raw one gives with that
    palette.  In particular theming twice with one palette is theming
    once. *)
Theorem last_palette_wins (raw : StyleDoc) (C1 C2 : Palette.Colors) :
  applyAppleStyle (applyAppleStyle raw C1) C2 = applyAppleStyle raw C2.
Proof.
  unfold applyAppleStyle. simpl. f_equal.
  rewrite filter_themed, List.map_map.
  apply List.map_ext. intros l. apply themeLayer_retheme.
Qed.

End ThemeMore.

(** ** Palette store *)

Section PaletteMore.

Import Palette PaletteEvents.

Lemma hex6_code (v : string) : hexTest 6 v = true -> isHexCode v.
Proof. intros H. now right. Qed.

Lemma default_valid : valid DEFAULT_COLORS.
Proof. intros k. right. destruct k; reflexivity. Qed.

Lemma set_valid (key : ColorKey.t) (v : string) (c : Colors) :
  isHexCode v -> valid c -> valid (set key v c).
Proof.
  intros Hv Hc k. rewrite get_set.
  destruct (decide (k = key)); [exact Hv | apply Hc].
Qed.

Lemma apply_valid (e : Event) (c : Colors) :
  pickerKeepsItsPromise e -> valid c -> valid (apply e c).
Proof.
  intros He Hc. destruct e as [key v | key v | raw |]; simpl in *.
  - unfold handleHexChange, updateColor.
    destruct (hexTest 3 v || hexTest 6 v)%bool eqn:Hv; simpl; [| exact Hc].
    apply set_valid; [| exact Hc].
    apply orb_true_iff in Hv. exact Hv.
  - apply set_valid; [now right | exact Hc].
  - intros k. destruct (keys_complete k) as [j Hj].
    rewrite (applyBulkString_get raw c j k Hj).
    destruct (nth_error (bulkHexes raw) j) as [hex|] eqn:Hhex; [| apply Hc].
    right. pose proof (bulkHexes_hex6 raw) as Hall.
    rewrite List.Forall_forall in Hall.
    apply Hall. eapply nth_error_In. exact Hhex.
  - exact default_valid.
Qed.

(** Whatever is typed, picked, pasted or reset, in any order, every value
    of the palette stays a [#] followed by three or six hex digits,
    provided the colour picker reports such a value. *)
Theorem palette_stays_well_formed (events : list Event) :
  Forall pickerKeepsItsPromise events ->
  valid (run events DEFAULT_COLORS).
Proof.
  unfold run. generalize default_valid. generalize DEFAULT_COLORS as c.
  induction events as [|e rest IH]; intros c Hc Hall; [exact Hc |].
  apply Forall_cons in Hall as [He Hrest].
  simpl. apply IH; [| exact Hrest]. now apply apply_valid.
Qed.

Lemma palette_stays_well_formed_witness :
  isHexCode
    (get ColorKey.water
       (run [Edit ColorKey.water "#12"; Paste "zz #FFF;#0a0B0c"; 
             Edit ColorKey.bg "#abcd"; Pick ColorKey.rail "#102030"]
          DEFAULT_COLORS)).
Proof.
  apply (palette_stays_well_formed
           [Edit ColorKey.water "#12"; Paste "zz #FFF;#0a0B0c";
            Edit ColorKey.bg "#abcd"; Pick ColorKey.rail "#102030"]).
  repeat constructor.
Defined.

(** *** The fallback of bulk apply *)

Lemma chunks6_length (n : nat) :
  forall s, String.length s <= n -> length (chunks6 s) = String.length s / 6.
Proof.
  induction n as [|n IH]; intros s Hn.
  - destruct s; [reflexivity | simpl in Hn; lia].
  - destruct s as [|a [|b [|c [|d [|e [|f r]]]]]]; try reflexivity.
    change (chunks6 (String a (String b (String c (String d (String e
              (String f r)))))))
      with (String a (String b (String c (String d (String e
              (String f ""))))) :: chunks6 r).
    simpl length. simpl String.length. simpl in Hn.
    rewrite IH by lia.
    replace (S (S (S (S (S (S (String.length r)))))))
      with (1 * 6 + String.length r) by lia.
    rewrite Nat.div_add_l by lia. reflexivity.
Qed.

Lemma chunks6_head (s : string) :
  6 <= String.length s ->
  nth_error (chunks6 s) 0 = Some (substring 0 6 s).
Proof.
  intros H.
  destruct s as [|a [|b [|c [|d [|e [|f r]]]]]]; simpl in H; try lia.
  simpl. destruct r; reflexivity.
Qed.

(** When the regular expression matches nothing in the pasted text, the
    hex digits of the text decide alone: [d] of them give [d / 6] codes.
    With fewer than six the paste changes nothing; with six or more the
    first key receives [#] and the first six hex digits, lowered, whatever
    stood between them. *)
Theorem bulk_apply_fallback_counts_hex_digits (raw : string) (prev : Colors) :
  matchHexCodes raw = [] ->
  let digits := stripNonHex raw in
  length (bulkHexes raw) = String.length digits / 6
  /\ (String.length digits < 6 -> applyBulkString raw prev = prev)
  /\ (6 <= String.length digits ->
      get ColorKey.bg (applyBulkString raw prev)
      = String "#" (Js.toLowerCase (substring 0 6 digits))).
Proof.
  intros Hnone. cbv zeta.
  assert (Hhexes :
    bulkHexes raw
    = map (fun h => String "#" (Js.toLowerCase h)) (chunks6 (stripNonHex raw))).
  { unfold bulkHexes. now rewrite Hnone. }
  assert (Hlen : length (bulkHexes raw) = String.length (stripNonHex raw) / 6).
  { rewrite Hhexes, length_map. apply (chunks6_length _ _ (le_n _)). }
  split; [exact Hlen |]. split.
  - intros Hshort. unfold applyBulkString.
    rewrite Hlen, Nat.div_small by exact Hshort. reflexivity.
  - intros Hlong.
    rewrite (applyBulkString_get raw prev 0 ColorKey.bg eq_refl), Hhexes.
    rewrite nth_error_map, (chunks6_head _ Hlong). reflexivity.
Qed.

Lemma bulk_apply_fallback_counts_hex_digits_witness :
  applyBulkString "not hex at all" DEFAULT_COLORS = DEFAULT_COLORS
  /\ get ColorKey.bg (applyBulkString "a faded bed" DEFAULT_COLORS)
     = "#afaded".
Proof.
  split.
  - apply (bulk_apply_fallback_counts_hex_digits "not hex at all"
             DEFAULT_COLORS eq_refl).
    vm_compute. lia.
  - etransitivity.
    + apply (bulk_apply_fallback_counts_hex_digits "a faded bed"
               DEFAULT_COLORS eq_refl).
      vm_compute. lia.
    + reflexivity.
Defined.

End PaletteMore.

(** ** Loading the style and re-theming *)

Section LoaderMore.

Import Loader.




End LoaderMore.

(** ** Geocode search *)

Section SearchMore.

Import Search Debounce.

Lemma elapse_query (dt : nat) (st : State) :
  query (elapse dt st) = query st.
Proof.
  unfold elapse. destruct (timer st) as [[due q]|]; [| reflexivity].
  simpl. destruct (due <=? clock st + dt)%nat; reflexivity.
Qed.

(** What a pause of [gap] milliseconds sends when the timer of the current
    query was set at its start. *)
Lemma elapse_armed (gap : nat) (st : State) :
  armed st ->
  fetches (elapse gap st) =
    (fetches st
     ++ (if ((DELAY <=? gap)%nat && negb (Js.trim (query st) =? "")%string)%bool
         then [query st] else []))%list.
Proof.
  intros Harmed.
  destruct (DELAY <=? gap)%nat eqn:Hgap.
  - apply Nat.leb_le in Hgap. rewrite (elapse_due gap st Harmed Hgap).
    destruct (Js.trim (query st) =? "")%string; simpl;
      [now rewrite app_nil_r | reflexivity].
  - apply Nat.leb_gt in Hgap.
    destruct (elapse_early gap st Harmed Hgap) as [_ Hf].
    rewrite Hf. simpl. now rewrite app_nil_r.
Qed.

Lemma mounted_armed : armed mounted.
Proof. reflexivity. Qed.

(** Debounce in general.  From a state whose timer was just set (or that
    is idle on a blank query), after any burst of changes of the text and a
    final wait, the requests sent are exactly the non-blank texts that
    stood for the whole delay, in the order they were typed. *)
Theorem debounce_fetches_exactly_the_settled_texts
    (changes : list (nat * string)) (wait : nat) :
  forall st,
    armed st ->
    changing (query st) changes ->
    fetches (elapse wait (typing changes st))
    = (fetches st ++ settled (query st) changes wait)%list.
Proof.
  induction changes as [|[gap q] rest IH]; intros st Harmed Hch.
  - simpl typing. simpl settled. apply elapse_armed, Harmed.
  - destruct Hch as [Hne Hch]. simpl in Hne, Hch.
    assert (Hne' : q <> query (elapse gap st))
      by (now rewrite elapse_query).
    destruct (setQuery_changed q _ Hne') as (Ha1 & Hq1 & Hf1).
    change (typing ((gap, q) :: rest) st)
      with (typing rest (setQuery q (elapse gap st))).
    rewrite (IH _ Ha1) by (now rewrite Hq1).
    rewrite Hf1, Hq1, (elapse_armed gap st Harmed).
    simpl settled. now rewrite <- app_assoc.
Qed.

(** Two texts, each left alone for the delay, are both searched; a text
    replaced in time is not. *)
Lemma debounce_fetches_exactly_the_settled_texts_witness :
  fetches
    (elapse 500
       (typing [(0, "l"); (100, "linz"); (420, "linz a"); (30, "wien")]
          mounted))
  = ["linz"; "wien"].
Proof.
  apply (debounce_fetches_exactly_the_settled_texts
           [(0, "l"); (100, "linz"); (420, "linz a"); (30, "wien")] 500
           mounted).
  - reflexivity.
  - simpl. repeat split; discriminate.
Defined.

End SearchMore.

(** ** The search box and the selection *)

Section AppMore.

Import App.

Variable parseFloat : string -> float.

Lemma setResults_sound rs app : sound app -> sound (setResults rs app).
Proof.
  intros (_ & Ht & Hs). unfold sound, setResults, tidy in *. simpl.
  repeat split; try lia; try tauto.
Qed.

Lemma setQuery_tidy (q : string) (s : Search.State) :
  tidy s -> tidy (Search.setQuery q s).
Proof.
  intros Ht. unfold Search.setQuery.
  destruct (q =? Search.query s)%string; [exact Ht |].
  unfold Search.effect, Search.cleanup, tidy. simpl.
  destruct (Js.trim q =? "")%string eqn:Hb; simpl; [exact I | now split].
Qed.

Lemma setQuery_blank_timer (q : string) (s : Search.State) :
  tidy s -> (Js.trim q =? "")%string = true ->
  Search.timer (Search.setQuery q s) = None.
Proof.
  intros Ht Hb. unfold Search.setQuery.
  destruct (q =? Search.query s)%string eqn:Heq.
  - apply String.eqb_eq in Heq. subst q. unfold tidy in Ht.
    destruct (Search.timer s) as [[due q]|]; [| reflexivity].
    destruct Ht as [-> Hnb]. congruence.
  - unfold Search.effect, Search.cleanup. simpl. now rewrite Hb.
Qed.

Lemma setQuery_sound q app : sound app -> sound (setQuery q app).
Proof.
  intros (Hr & Ht & Hs). unfold sound, setQuery. simpl.
  split; [| split; [now apply setQuery_tidy | exact Hs]].
  unfold Search.setQuery.
  destruct (q =? Search.query (search app))%string; simpl; [exact Hr |].
  unfold Search.effect, Search.cleanup. simpl.
  destruct (Js.trim q =? "")%string; simpl; [lia | exact Hr].
Qed.

Lemma elapse_results (dt : nat) (s : Search.State) :
  Search.results (Search.elapse dt s) = Search.results s.
Proof.
  unfold Search.elapse. destruct (Search.timer s) as [[due q]|]; [| reflexivity].
  simpl. destruct (due <=? Search.clock s + dt)%nat; reflexivity.
Qed.

Lemma elapse_tidy (dt : nat) (s : Search.State) :
  tidy s -> tidy (Search.elapse dt s).
Proof.
  unfold tidy, Search.elapse.
  destruct (Search.timer s) as [[due q]|] eqn:Htimer; simpl.
  - destruct (due <=? Search.clock s + dt)%nat; simpl.
    + intros _. exact I.
    + tauto.
  - tauto.
Qed.

Lemma elapse_sound dt app : sound app -> sound (elapse dt app).
Proof.
  intros (Hr & Ht & Hs). unfold sound, elapse. simpl.
  rewrite elapse_results.
  split; [exact Hr |]. split; [now apply elapse_tidy | exact Hs].
Qed.

Lemma settle_sound r app : sound app -> sound (settle r app).
Proof.
  intros (_ & Ht & Hs). unfold sound, settle, Search.settle, tidy in *. simpl.
  repeat split; try lia; try tauto.
Qed.

Lemma clearSearch_sound app : sound app -> sound (clearSearch app).
Proof. intros H. now apply setResults_sound, setQuery_sound. Qed.

Lemma flyTo_sound result map app :
  sound app -> sound (fst (flyTo parseFloat result map app)).
Proof.
  intros H. pose proof H as (Hr & Ht & Hs).
  unfold flyTo. destruct map; [| exact H].
  unfold Camera.flyTo.
  destruct (Search.boundingbox result) as [[[south north] west] east].
  simpl. unfold sound. simpl. split; [lia |]. split.
  - exact (setQuery_tidy "" (search app) Ht).
  - split; discriminate.
Qed.

Lemma handleInputKeyDown_sound key map app :
  sound app -> sound (fst (handleInputKeyDown parseFloat key map app)).
Proof.
  intros H. unfold handleInputKeyDown.
  destruct (key =? "ArrowDown")%string.
  { destruct (length (Search.results (search app)) =? 0)%nat eqn:Hlen;
      [exact H |].
    apply Nat.eqb_neq in Hlen. destruct H as (Hr & Ht & Hs).
    unfold sound. simpl. repeat split; try tauto; lia. }
  destruct (key =? "ArrowUp")%string.
  { destruct (length (Search.results (search app)) =? 0)%nat eqn:Hlen;
      [exact H |].
    destruct H as (Hr & Ht & Hs).
    unfold sound. simpl. repeat split; try tauto; lia. }
  destruct (key =? "Enter")%string.
  { destruct (0 <=? highlightedIndex app)%Z; [| exact H].
    destruct (nth_error _ _); [now apply flyTo_sound | exact H]. }
  destruct (key =? "Escape")%string; [| exact H].
  now apply clearSearch_sound.
Qed.

Lemma step_sound app e : sound app -> sound (step parseFloat app e).
Proof.
  intros H. destruct e; simpl.
  - now apply setQuery_sound.
  - now apply elapse_sound.
  - now apply settle_sound.
  - now apply handleInputKeyDown_sound.
  - now apply flyTo_sound.
  - now apply clearSearch_sound.
  - destruct H as (Hr & Ht & Hs). unfold sound. simpl.
    split; [exact Hr |]. split; [exact Ht |].
    unfold Camera.handleMove. simpl.
    destruct (Camera.flying (camera app)); [exact Hs |].
    destruct (Camera.searchedCoords (camera app)) as [c|]; [| exact Hs].
    destruct e_viewState, map as [vp|]; simpl; [| exact Hs].
    destruct (vp c); simpl; [exact Hs | tauto].
  - exact H.
Qed.

Lemma run_sound (events : list Event) :
  forall app, sound app -> sound (run parseFloat events app).
Proof.
  induction events as [|e rest IH]; intros app H; [exact H |].
  apply IH. now apply step_sound.
Qed.

Lemma mounted_sound : sound mounted.
Proof. unfold sound, tidy. simpl. repeat split; try lia; tauto. Qed.

(** Whatever is typed, answered, pressed or clicked, and however the camera
    moves, the highlight is [-1] or the index of a result in the list; so
    Enter with a highlight always finds its result, and selects it. *)
Theorem highlight_stays_in_range (events : list Event) :
  let app := run parseFloat events mounted in
  let results := Search.results (search app) in
  (-1 <= highlightedIndex app < Z.of_nat (length results))%Z
  /\ ((0 <= highlightedIndex app)%Z ->
      exists result,
        nth_error results (Z.to_nat (highlightedIndex app)) = Some result
        /\ handleInputKeyDown parseFloat "Enter" true app
           = flyTo parseFloat result true app).
Proof.
  cbv zeta.
  destruct (run_sound events mounted mounted_sound) as (Hr & _).
  split; [exact Hr |]. intros Hpos.
  destruct (nth_error (Search.results (search (run parseFloat events mounted)))
              (Z.to_nat (highlightedIndex (run parseFloat events mounted))))
    as [result|] eqn:Hnth.
  - exists result. split; [reflexivity |].
    unfold handleInputKeyDown. simpl.
    apply Z.leb_le in Hpos. now rewrite Hpos, Hnth.
  - apply nth_error_None in Hnth. lia.
Qed.

Lemma press_results (key : string) (n : nat) (app : State) :
  key = "ArrowDown" \/ key = "ArrowUp" ->
  Search.results (search (press parseFloat key n app))
  = Search.results (search app).
Proof.
  intros Hkey. induction n as [|n IH]; [reflexivity |].
  unfold press in *. simpl Nat.iter. rewrite <- IH.
  unfold handleInputKeyDown.
  destruct Hkey as [-> | ->]; simpl;
    destruct (length _ =? 0)%nat; reflexivity.
Qed.

(** Arrow keys move the highlight one step and stop at the ends: [n]
    presses of ArrowDown take it from [i] to [min (i + n) (length - 1)],
    [n] presses of ArrowUp to [max (i - n) (-1)]; with no results it stays
    at [-1]. *)
Theorem arrows_clamp_the_highlight (events : list Event) (n : nat) :
  let app := run parseFloat events mounted in
  let last := (Z.of_nat (length (Search.results (search app))) - 1)%Z in
  highlightedIndex (press parseFloat "ArrowDown" n app)
  = Z.min (highlightedIndex app + Z.of_nat n) last
  /\ highlightedIndex (press parseFloat "ArrowUp" n app)
     = Z.max (highlightedIndex app - Z.of_nat n) (-1).
Proof.
  cbv zeta.
  destruct (run_sound events mounted mounted_sound) as (Hr & _).
  generalize dependent (run parseFloat events mounted). intros app Hr.
  split.
  - induction n as [|n IH]; [simpl; lia |].
    pose proof (press_results "ArrowDown" n app (or_introl eq_refl)) as Hres.
    unfold press in *. simpl Nat.iter.
    unfold handleInputKeyDown at 1. simpl. rewrite Hres.
    destruct (length (Search.results (search app)) =? 0)%nat eqn:Hlen; simpl.
    + apply Nat.eqb_eq in Hlen. rewrite IH. lia.
    + apply Nat.eqb_neq in Hlen. rewrite IH. lia.
  - induction n as [|n IH]; [simpl; lia |].
    pose proof (press_results "ArrowUp" n app (or_intror eq_refl)) as Hres.
    unfold press in *. simpl Nat.iter.
    unfold handleInputKeyDown at 1. simpl. rewrite Hres.
    destruct (length (Search.results (search app)) =? 0)%nat eqn:Hlen; simpl.
    + apply Nat.eqb_eq in Hlen. rewrite IH. lia.
    + rewrite IH. lia.
Qed.

(** Selecting a result, by click or Enter, in any reachable state: one
    fit-bounds command goes out, for the box west, south, east, north of
    the result; the query and the results are emptied, the highlight is
    reset and the debounce timer is gone, so that no request follows
    however long one waits; the name and the coordinate of the result
    become the selection, the flight is marked as under way and the
    [captured] flag is dropped. *)
Theorem selecting_a_result (events : list Event)
    (result : Search.NominatimResult) :
  let app := run parseFloat events mounted in
  let app' := fst (flyTo parseFloat result true app) in
  let '(south, north, west, east) := Search.boundingbox result in
  snd (flyTo parseFloat result true app)
  = [Camera.FitBounds (parseFloat west) (parseFloat south)
       (parseFloat east) (parseFloat north)]
  /\ Search.query (search app') = ""
  /\ Search.results (search app') = []
  /\ highlightedIndex app' = (-1)%Z
  /\ Search.timer (search app') = None
  /\ (forall dt,
        Search.fetches (search (elapse dt app'))
        = Search.fetches (search app))
  /\ Camera.selectedName (camera app') = Some (Search.display_name result)
  /\ Camera.searchedCoords (camera app')
     = Some (parseFloat (Search.lon result), parseFloat (Search.lat result))
  /\ Camera.flying (camera app') = true
  /\ Capture.captured (capture app') = false.
Proof.
  cbv zeta.
  destruct (run_sound events mounted mounted_sound) as (_ & Ht & _).
  generalize dependent (run parseFloat events mounted). intros app Ht.
  unfold flyTo, Camera.flyTo.
  destruct (Search.boundingbox result) as [[[south north] west] east].
  simpl.
  pose proof (setQuery_blank_timer "" (search app) Ht eq_refl) as Htimer.
  assert (Hq : Search.query (Search.setQuery "" (search app)) = ""
               /\ Search.fetches (Search.setQuery "" (search app))
                  = Search.fetches (search app)).
  { unfold Search.setQuery.
    destruct ("" =? Search.query (search app))%string eqn:Heq.
    - apply String.eqb_eq in Heq. now rewrite <- Heq.
    - now split. }
  destruct Hq as [Hq Hf].
  repeat split; try assumption.
  intros dt. unfold Search.elapse. simpl. rewrite Htimer. simpl. exact Hf.
Qed.

End AppMore.

(** ** Camera *)

Section CameraMore.

Import Camera.

Lemma run_moves_in_flight (moves : list Event) :
  forall st,
    Forall App.isMove moves ->
    flying st = true ->
    selectedName (run moves st) = selectedName st
    /\ searchedCoords (run moves st) = searchedCoords st
    /\ flying (run moves st) = true.
Proof.
  induction moves as [|e rest IH]; intros st Hall Hfly; [now repeat split |].
  apply Forall_cons in Hall as [He Hrest].
  destruct e as [v map|]; [| contradiction].
  change (run (Move v map :: rest) st) with (run rest (handleMove v map st)).
  assert (Hstep :
    selectedName (handleMove v map st) = selectedName st
    /\ searchedCoords (handleMove v map st) = searchedCoords st
    /\ flying (handleMove v map st) = true).
  { unfold handleMove. simpl. now rewrite Hfly. }
  destruct Hstep as (Hn & Hc & Hf).
  destruct (IH _ Hrest Hf) as (Hn' & Hc' & Hf').
  now rewrite Hn', Hc', Hn, Hc.
Qed.

(** While a flight is under way no move clears the selection, wherever the
    viewport is; after the end of the flight the next move keeps the
    selection when the viewport contains its coordinate and clears it when
    it does not. *)
Theorem flight_protects_the_selection (parseFloat : string -> float)
    (result : Search.NominatimResult) (st : State) (moves : list Event)
    (v : ViewState) (viewport : Viewport) :
  Forall App.isMove moves ->
  let coords :=
    (parseFloat (Search.lon result), parseFloat (Search.lat result)) in
  let inFlight := run moves (fst (flyTo parseFloat result true st)) in
  let landed := handleMove v (Some viewport) (onMoveEnd inFlight) in
  selectedName inFlight = Some (Search.display_name result)
  /\ searchedCoords inFlight = Some coords
  /\ (viewport coords = true ->
      selectedName landed = Some (Search.display_name result)
      /\ searchedCoords landed = Some coords)
  /\ (viewport coords = false ->
      selectedName landed = None /\ searchedCoords landed = None).
Proof.
  intros Hmoves. cbv zeta.
  assert (Hstart :
    selectedName (fst (flyTo parseFloat result true st))
      = Some (Search.display_name result)
    /\ searchedCoords (fst (flyTo parseFloat result true st))
      = Some (parseFloat (Search.lon result), parseFloat (Search.lat result))
    /\ flying (fst (flyTo parseFloat result true st)) = true).
  { unfold flyTo.
    destruct (Search.boundingbox result) as [[[south north] west] east].
    now repeat split. }
  destruct Hstart as (Hn & Hc & Hf).
  destruct (run_moves_in_flight moves _ Hmoves Hf) as (Hn' & Hc' & _).
  rewrite Hn in Hn'. rewrite Hc in Hc'.
  split; [exact Hn' |]. split; [exact Hc' |].
  generalize dependent (run moves (fst (flyTo parseFloat result true st))).
  intros s Hn' Hc'.
  unfold handleMove, onMoveEnd. simpl. rewrite Hc'.
  split; intros ->; simpl; now split.
Qed.

Lemma flight_protects_the_selection_witness :
  let linz :=
    {| Search.place_id := 1; Search.display_name := "Linz";
       Search.lat := "48.3"; Search.lon := "14.3";
       Search.result_type := "city"; Search.result_class := "place";
       Search.importance := 0.7;
       Search.boundingbox := ("48.2", "48.4", "14.2", "14.4") |} in
  let far := {| longitude := 0; latitude := 0; view_zoom := 2 |} in
  selectedName
    (run [Move far (Some (box 0 0 1 1)); Move far (Some (box 2 2 3 3))]
       (fst (flyTo (fun _ => 14.3%float) linz true linzSelected)))
  = Some "Linz".
Proof.
  cbv zeta.
  apply (flight_protects_the_selection (fun _ => 14.3%float)
           {| Search.place_id := 1; Search.display_name := "Linz";
              Search.lat := "48.3"; Search.lon := "14.3";
              Search.result_type := "city"; Search.result_class := "place";
              Search.importance := 0.7;
              Search.boundingbox := ("48.2", "48.4", "14.2", "14.4") |}
           linzSelected
           [Move {| longitude := 0; latitude := 0; view_zoom := 2 |}
              (Some (box 0 0 1 1));
            Move {| longitude := 0; latitude := 0; view_zoom := 2 |}
              (Some (box 2 2 3 3))]
           {| longitude := 0; latitude := 0; view_zoom := 2 |}
           (box 0 0 1 1)).
  repeat constructor.
Defined.

Lemma has_false (keys : gset string) (k : string) :
  keys ∩ NAV_KEYS = ∅ -> k ∈ NAV_KEYS -> has keys k = false.
Proof.
  intros Hdisj Hk. unfold has. apply bool_decide_eq_false.
  intros Hin. assert (Hboth : k ∈ keys ∩ NAV_KEYS) by set_solver.
  rewrite Hdisj in Hboth. set_solver.
Qed.

(** Keys that are not navigation keys are held in the set as well, and do
    nothing: with none of the seven navigation keys held a tick issues no
    command and leaves the surface as it is. *)
Theorem tick_needs_a_navigation_key (map : option Surface)
    (keys : gset string) :
  keys ∩ NAV_KEYS = ∅ -> tick map keys = (map, []).
Proof.
  intros Hdisj. unfold tick.
  destruct map as [m|]; [| reflexivity].
  destruct (0 <? size keys)%nat; [| reflexivity].
  rewrite !(has_false keys _ Hdisj) by (unfold NAV_KEYS; set_solver).
  reflexivity.
Qed.

Lemma tick_needs_a_navigation_key_witness :
  tick (Some surface0) (onKeyDown false false "Shift" {[ "a" ]})
  = (Some surface0, []).
Proof.
  apply (tick_needs_a_navigation_key (Some surface0)
           (onKeyDown false false "Shift" {[ "a" ]})).
  apply (bool_decide_unpack _). vm_compute. exact I.
Defined.

End CameraMore.

(** ** The held keys and the theme dialog *)

Section KeyboardMore.

Import Keyboard.

Lemma run_while_open (events : list Event) :
  forall st,
    Forall keepsDialog events ->
    themeOpen st = true -> keys st = ∅ ->
    themeOpen (run events st) = true /\ keys (run events st) = ∅.
Proof.
  induction events as [|e rest IH]; intros st Hall Hopen Hkeys; [now split |].
  apply Forall_cons in Hall as [He Hrest].
  change (run (e :: rest) st) with (run rest (step st e)).
  apply IH; [exact Hrest | |];
    destruct e as [focused key | key | open]; simpl in *;
    try contradiction; try assumption.
  - unfold Camera.onKeyDown. rewrite Hopen.
    destruct focused; assumption.
  - unfold Camera.onKeyUp. rewrite Hkeys.
    apply difference_disjoint_L. set_solver.
Qed.

(** From the moment the theme dialog opens until it closes, whatever keys
    were held before and whatever keys go down or up meanwhile, the set of
    held keys is empty and every tick leaves the camera alone. *)
Theorem open_dialog_stops_navigation (st : State) (events : list Event)
    (map : option Camera.Surface) :
  themeOpen st = false ->
  Forall keepsDialog events ->
  let st' := run events (step st (SetThemeOpen true)) in
  themeOpen st' = true
  /\ keys st' = ∅
  /\ Camera.tick map (keys st') = (map, []).
Proof.
  intros Hclosed Hall. cbv zeta.
  assert (Hopened :
    themeOpen (step st (SetThemeOpen true)) = true
    /\ keys (step st (SetThemeOpen true)) = ∅).
  { simpl. rewrite Hclosed. now split. }
  destruct Hopened as [Ho Hk].
  destruct (run_while_open events _ Hall Ho Hk) as [Ho' Hk'].
  split; [exact Ho' |]. split; [exact Hk' |].
  rewrite Hk'. unfold Camera.tick. destruct map; reflexivity.
Qed.

Lemma open_dialog_stops_navigation_witness :
  Camera.tick (Some Camera.surface0)
    (keys
       (run [Down false "ArrowUp"; Up "ArrowLeft"; Down false "+"]
          (step {| themeOpen := false; keys := {[ "ArrowLeft" ]} |}
             (SetThemeOpen true))))
  = (Some Camera.surface0, []).
Proof.
  apply (open_dialog_stops_navigation
           {| themeOpen := false; keys := {[ "ArrowLeft" ]} |}
           [Down false "ArrowUp"; Up "ArrowLeft"; Down false "+"]
           (Some Camera.surface0)).
  - reflexivity.
  - repeat constructor.
Defined.

End KeyboardMore.

(** ** Capture *)

Section CaptureMore.

Import CaptureFlow.

(** After a capture that ended with no blob, the flag is up with no
    callback left to take it down: the button stays disabled, and no later
    click, callback or timeout starts a capture, draws or downloads
    anything. *)
Theorem capture_is_stuck_after_an_empty_blob (st : State)
    (events : list Event) :
  Capture.isCapturing (flags st) = true ->
  stage st = Idle ->
  Capture.isCapturing (flags (run events st)) = true
  /\ stage (run events st) = Idle
  /\ log (run events st) = log st.
Proof.
  revert st. induction events as [|e rest IH]; intros st Hflag Hstage;
    [now repeat split |].
  change (run (e :: rest) st) with (run rest (step st e)).
  assert (Hstep :
    Capture.isCapturing (flags (step st e)) = true
    /\ stage (step st e) = Idle /\ log (step st e) = log st).
  { destruct e as [map | | blob now |]; simpl; rewrite ?Hflag, ?Hstage;
      now repeat split. }
  destruct Hstep as (Hf & Hs & Hl).
  destruct (IH _ Hf Hs) as (Hf' & Hs' & Hl').
  now rewrite Hf', Hs', Hl', Hl.
Qed.

Lemma capture_is_stuck_after_an_empty_blob_witness :
  let stuck := run [Click true; Frame; Blob None 0] initial in
  Capture.isCapturing
    (flags (run [Click true; Frame; Blob (Some "png") 1; Timeout] stuck))
  = true
  /\ log (run [Click true; Frame; Blob (Some "png") 1; Timeout] stuck)
     = [Capture.RequestFrame; Capture.DrawImage; Capture.ToBlob].
Proof.
  cbv zeta.
  destruct (capture_is_stuck_after_an_empty_blob
              (run [Click true; Frame; Blob None 0] initial)
              [Click true; Frame; Blob (Some "png") 1; Timeout]
              eq_refl eq_refl) as (Hf & _ & Hl).
  split; [exact Hf | exact Hl].
Defined.

End CaptureMore.

